(** * cpljson: the CodePlane sidecar cache client

    A shallow embedding of [src/codeplane/bin/cpljson.c] (POSIX build) and
    the properties its specification states about it.

    Conventions of the embedding.
    - A byte is an [ascii]; a buffer or a file is a [list ascii] that may hold
      any byte, NUL included.  The C string held in a buffer is [c_str]: the
      bytes before the first NUL.  Every libc function that takes a
      [char *] reads its argument through [c_str].
    - The file system is a finite map from path to content; [fopen] succeeds
      exactly on the paths of the map.
    - [size_t] and [int] counters are natural numbers: every buffer of the
      program is far smaller than the range of either type.
    - [atoi] and [%d] return an [int].  For digits beyond the range of
      [int], where C leaves the result open, they do what the C library of
      the build does ([strtol] on a 64-bit [long], then the conversion to a
      32-bit [int]): saturate at the range of [long], keep the low 32 bits.
    - Where the C code would read or write outside an array the model returns
      [None]. *)

From Stdlib Require Import ZArith List Ascii String Lia DecimalString.
From stdpp Require Import base option list gmap strings.
From Equations Require Import Equations.

Set Default Proof Using "Type".

(** ** Bytes and C strings *)

Abbreviation bytes := (list ascii).

Definition B (s : string) : bytes := list_ascii_of_string s.
Arguments B _%_string_scope.

Definition NUL : ascii := "000"%char.
Definition TAB : ascii := "009"%char.
Definition LF : ascii := "010"%char.
Definition CR : ascii := "013"%char.
Definition DQUOTE : ascii := "034"%char.
Definition CRLF : bytes := [CR; LF].

(** A line of text ending in a newline, as the [\n] of a C literal. *)
Definition ln (s : string) : bytes := B s ++ [LF].
Arguments ln _%_string_scope.

Definition code (c : ascii) : nat := nat_of_ascii c.

(** [lo <= c && c <= hi] on [unsigned char]. *)
Definition between (lo hi c : ascii) : bool :=
  (code lo <=? code c) && (code c <=? code hi).

Definition is_nul (c : ascii) : bool := Ascii.eqb c NUL.

(** The C string stored at the start of a buffer. *)
Fixpoint c_str (m : bytes) : bytes :=
  match m with
  | [] => []
  | c :: m' => if is_nul c then [] else c :: c_str m'
  end.

Fixpoint starts_with (p s : bytes) : bool :=
  match p, s with
  | [], _ => true
  | _ :: _, [] => false
  | a :: p', b :: s' => Ascii.eqb a b && starts_with p' s'
  end.

(** [strcmp(a, b) == 0] *)
Definition strcmp_eq (a b : bytes) : bool := bool_decide (c_str a = c_str b).

(** [strncmp(a, b, n) == 0] *)
Definition strncmp_eq (a b : bytes) (n : nat) : bool :=
  bool_decide (take n (c_str a) = take n (c_str b)).

(** [strchr(s, c)] on a C string [s], for [c] other than NUL: the suffix
    that starts at the first [c]. *)
Fixpoint strchr (s : bytes) (c : ascii) : option bytes :=
  match s with
  | [] => None
  | x :: s' => if Ascii.eqb x c then Some s else strchr s' c
  end.

(** [strrchr(s, c)] on a C string [s]: the index of the last [c]. *)
Fixpoint strrchr (s : bytes) (c : ascii) : option nat :=
  match s with
  | [] => None
  | x :: s' =>
      match strrchr s' c with
      | Some k => Some (S k)
      | None => if Ascii.eqb x c then Some 0 else None
      end
  end.

(** [strstr(hay, needle)] on C strings: the suffix of [hay] that starts at
    the first occurrence of [needle]. *)
Fixpoint strstr (hay needle : bytes) : option bytes :=
  match hay with
  | [] => if starts_with needle [] then Some [] else None
  | _ :: hay' => if starts_with needle hay then Some hay else strstr hay' needle
  end.

(** [snprintf(buf, sz, ...)] where the format expands to [s]: the C string
    left in [buf] (for [sz >= 1]) and the returned length. *)
Definition snprintf (sz : nat) (s : bytes) : bytes * nat :=
  (take (sz - 1) s, length s).

(** ** Integers in text: [isspace], [isdigit], [atoi], [%d] *)

Definition isspace (c : ascii) : bool :=
  Ascii.eqb c " "%char || between TAB CR c.

Definition isdigit (c : ascii) : bool := between "0"%char "9"%char c.

Definition digit_val (c : ascii) : Z := Z.of_nat (code c - code "0"%char).

Fixpoint skip_space (s : bytes) : bytes :=
  match s with
  | c :: s' => if isspace c then skip_space s' else s
  | [] => []
  end.

Fixpoint digits_val (acc : Z) (s : bytes) : Z :=
  match s with
  | c :: s' => if isdigit c then digits_val (10 * acc + digit_val c)%Z s' else acc
  | [] => acc
  end.

(** The ranges of [int] and [long]. *)
Definition INT_MIN : Z := - 2 ^ 31.
Definition INT_MAX : Z := 2 ^ 31 - 1.
Definition LONG_MIN : Z := - 2 ^ 63.
Definition LONG_MAX : Z := 2 ^ 63 - 1.

(** [strtol] saturates at the range of [long]. *)
Definition to_long (v : Z) : Z := Z.max LONG_MIN (Z.min LONG_MAX v).

(** The conversion of a [long] to [int] keeps the low 32 bits, read as a
    signed number. *)
Definition to_int (v : Z) : Z := (v + 2 ^ 31) mod 2 ^ 32 - 2 ^ 31.

(** The [int] at the start of [s] after an optional sign, and whether a
    digit was there at all. *)
Definition signed_val (s : bytes) : option Z :=
  let '(neg, r) :=
    match s with
    | c :: r => if Ascii.eqb c "-"%char then (true, r)
                else if Ascii.eqb c "+"%char then (false, r)
                else (false, s)
    | [] => (false, s)
    end in
  match r with
  | d :: _ => if isdigit d
              then Some (to_int (to_long
                           (if neg : bool then (- digits_val 0 r)%Z else digits_val 0 r)))
              else None
  | [] => None
  end.

(** [atoi(s)], which is [(int) strtol(s, NULL, 10)]: white space, an
    optional sign, digits up to the first non-digit; 0 when there is no
    digit. *)
Definition atoi (s : bytes) : Z := default 0%Z (signed_val (skip_space s)).

(** [%d] of [scanf], stored into an [int]: as [atoi], but the conversion
    fails without a digit. *)
Definition scan_int (s : bytes) : option Z := signed_val (skip_space s).

(** [%d] of [printf]. *)
Definition dec (z : Z) : bytes := B (NilZero.string_of_int (Z.to_int z)).

(** [sscanf(line, "port: %d", &p) == 1]: the literal [port:] at the very
    start of the line, then any white space, then an integer. *)
Definition sscanf_port (line : bytes) : option Z :=
  if starts_with (B "port:") line
  then scan_int (skip_space (drop 5 line))
  else None.

(** ** Files *)

Abbreviation filesystem := (gmap (list ascii) (list ascii)).

(** [fopen(path, "r")]: the content of the stream, or [None] for NULL. *)
Definition fopen (fs : filesystem) (path : bytes) : option bytes :=
  fs !! c_str path.

(** [fread(buf, 1, n, f)] on a fresh stream. *)
Definition fread (n : nat) (content : bytes) : bytes := take n content.

(** One call of [fgets] with room for [k] characters: the characters
    stored, up to and with the first newline, and the rest of the stream. *)
Fixpoint fgets_take (k : nat) (s : bytes) : bytes * bytes :=
  match k, s with
  | 0, _ => ([], s)
  | _, [] => ([], [])
  | S k', c :: s' =>
      if Ascii.eqb c LF then ([c], s')
      else let '(l, r) := fgets_take k' s' in (c :: l, r)
  end.

(** [fgets(line, n, f)]: [None] for NULL at end of file. *)
Definition fgets (n : nat) (s : bytes) : option (bytes * bytes) :=
  match s with
  | [] => None
  | _ :: _ => Some (fgets_take (n - 1) s)
  end.

(** ** Constants *)

Definition BUF_SIZE : nat := 256 * 1024.
Definition MAX_PATH_LEN : nat := 4096.
Definition MAX_URL_LEN : nat := 8192.
(** [char line[256]] of [read_port], [char buf[512]] of [read_port],
    [char token[512]] and [char enc1[1024], enc2[1024]] of [main]. *)
Definition LINE_SZ : nat := 256.
Definition PORT_BUF_SZ : nat := 512.
Definition TOKEN_SZ : nat := 512.
Definition ENC_SZ : nat := 1024.
Definition DEFAULT_PORT : Z := 7777.

(** ** ConfigLocator: [find_codeplane_dir] *)

Definition inspect {A} (a : A) : {b | a = b} := exist _ a eq_refl.

Lemma strrchr_lt s c k : strrchr s c = Some k -> k < length s.
Proof.
  revert k; induction s as [|x s IH]; intros k; simpl; [discriminate|].
  destruct (strrchr s c) as [j|].
  - intros [= <-]. specialize (IH j eq_refl). lia.
  - destruct (Ascii.eqb x c); [intros [= <-]; lia | discriminate].
Qed.

(** [getcwd(cwd, size)]: NULL when the system call fails or when the path
    and its terminator do not fit [size] bytes. *)
Definition getcwd (os_cwd : option bytes) (size : nat) : option bytes :=
  match os_cwd with
  | Some d => if length (c_str d) <? size then Some (c_str d) else None
  | None => None
  end.

(** The two probes of one round of the loop, and the path reported. *)
Definition probe_marker (cwd : bytes) : bytes :=
  (snprintf MAX_PATH_LEN (cwd ++ B "/.codeplane")).1.
Definition probe_config (cwd : bytes) : bytes :=
  (snprintf MAX_PATH_LEN (cwd ++ B "/.codeplane/config.yaml")).1.
Definition marker_path (out_sz : nat) (cwd : bytes) : bytes :=
  (snprintf out_sz (cwd ++ B "/.codeplane")).1.

(** The [for (;;)] loop of [find_codeplane_dir] on the current content of
    [cwd]; [None] is the return value -1. *)
Equations? find_codeplane_loop (fs : filesystem) (out_sz : nat) (cwd : bytes)
  : option bytes by wf (length cwd) lt :=
find_codeplane_loop fs out_sz cwd with fopen fs (probe_marker cwd) := {
  | Some _ => Some (marker_path out_sz cwd)
  | None with fopen fs (probe_config cwd) := {
    | Some _ => Some (marker_path out_sz cwd)
    | None with inspect (strrchr cwd "/"%char) := {
      | exist _ None _ => None
      | exist _ (Some 0) _ => None
      | exist _ (Some (S k)) e => find_codeplane_loop fs out_sz (take (S k) cwd) } } }.
Proof.
  apply strrchr_lt in e. rewrite length_take. lia.
Qed.

Definition find_codeplane_dir (fs : filesystem) (os_cwd : option bytes)
    (out_sz : nat) : option bytes :=
  match getcwd os_cwd MAX_PATH_LEN with
  | None => None
  | Some cwd => find_codeplane_loop fs out_sz cwd
  end.

(** ** ConfigResolver: [read_port] and [read_token] *)

Lemma fgets_take_length k s :
  length (fgets_take k s).2 + length (fgets_take k s).1 = length s.
Proof.
  revert s; induction k as [|k IH]; intros [|c s]; simpl; try lia.
  destruct (Ascii.eqb c LF); simpl; [lia|].
  specialize (IH s). destruct (fgets_take k s) as [l r]. simpl in *. lia.
Qed.

Lemma fgets_take_nonempty k c s : (fgets_take (S k) (c :: s)).1 <> [].
Proof.
  cbn [fgets_take]. destruct (Ascii.eqb c LF); [discriminate|].
  destruct (fgets_take k s); discriminate.
Qed.

Lemma fgets_progress s l r : fgets LINE_SZ s = Some (l, r) -> length r < length s.
Proof.
  destruct s as [|c s]; [discriminate|]. unfold fgets.
  change (LINE_SZ - 1) with (S 254). generalize 254 as k. intros k H.
  pose proof (fgets_take_length (S k) (c :: s)) as Hlen.
  pose proof (fgets_take_nonempty k c s) as Hne.
  destruct (fgets_take (S k) (c :: s)) as [l' r'].
  injection H as -> ->. cbn [fst snd] in *.
  destruct l; [congruence|]. cbn [length] in *. lia.
Qed.

(** The [while (fgets(...))] loop over [config.yaml]: the value of the
    first line that [sscanf] accepts. *)
Equations? scan_config_lines (stream : bytes) : option Z by wf (length stream) lt :=
scan_config_lines stream with inspect (fgets LINE_SZ stream) := {
  | exist _ None _ => None
  | exist _ (Some (line, rest)) e with sscanf_port (c_str line) := {
    | Some p => Some p
    | None => scan_config_lines rest } }.
Proof.
  eapply fgets_progress; exact e.
Qed.

(** The two spellings of the key of [server.json]. *)
Definition KEY_DQ : bytes := DQUOTE :: B "port" ++ [DQUOTE].
Definition KEY_SQ : bytes := B "'port'".

(** The scan of the text of [server.json]: the integer after the first
    [:] that follows the key. *)
Definition scan_server_json (buf : bytes) : option Z :=
  let pp := match strstr buf KEY_DQ with
            | Some r => Some r
            | None => strstr buf KEY_SQ
            end in
  match pp with
  | Some r =>
      match strchr r ":"%char with
      | Some r' => Some (atoi (drop 1 r'))
      | None => None
      end
  | None => None
  end.

Definition read_port (fs : filesystem) (cpl_dir : bytes) : Z :=
  match fopen fs (snprintf MAX_PATH_LEN (c_str cpl_dir ++ B "/run/server.json")).1 with
  | None =>
      match fopen fs (snprintf MAX_PATH_LEN (c_str cpl_dir ++ B "/config.yaml")).1 with
      | None => DEFAULT_PORT
      | Some content => default DEFAULT_PORT (scan_config_lines content)
      end
  | Some content =>
      let buf := c_str (fread (PORT_BUF_SZ - 1) content) in
      default DEFAULT_PORT (scan_server_json buf)
  end.

Definition is_trailing_ws (c : ascii) : bool :=
  Ascii.eqb c LF || Ascii.eqb c CR || Ascii.eqb c " "%char.

(** [while (n > 0 && (out[n-1] is one of \n \r space)) out[--n] = '\0';] *)
Fixpoint trim_loop (out : bytes) (n : nat) : nat :=
  match n with
  | 0 => 0
  | S k => if is_trailing_ws (default NUL (out !! k)) then trim_loop out k else n
  end.

(** [read_token]: the bytes left in [out] before its terminator; the
    returned count is their number. *)
Definition read_token (fs : filesystem) (cpl_dir : bytes) (out_sz : nat) : bytes :=
  match fopen fs (snprintf MAX_PATH_LEN (c_str cpl_dir ++ B "/run/token")).1 with
  | None => []
  | Some content =>
      let out := fread (out_sz - 1) content in
      take (trim_loop out (length out)) out
  end.

(** ** QueryEncoder: [url_encode] *)

Definition unreserved (c : ascii) : bool :=
  between "A"%char "Z"%char c || between "a"%char "z"%char c ||
  between "0"%char "9"%char c ||
  Ascii.eqb c "-"%char || Ascii.eqb c "_"%char ||
  Ascii.eqb c "."%char || Ascii.eqb c "~"%char.

(** One upper-case hexadecimal digit, as [%X] prints it. *)
Definition hex_digit (n : nat) : ascii :=
  if n <? 10 then ascii_of_nat (code "0"%char + n)
  else ascii_of_nat (code "A"%char + (n - 10)).

(** The expansion of the format [%%%02X] for an [unsigned char]. *)
Definition pct (c : ascii) : bytes :=
  ["%"%char; hex_digit (code c / 16); hex_digit (code c mod 16)].

(** The characters the [while] loop of [url_encode] stores from index [i]
    on; the terminator goes right after them. *)
Fixpoint url_encode_loop (src : bytes) (i dst_sz : nat) : bytes :=
  match src with
  | [] => []
  | c :: src' =>
      if negb (is_nul c) && (i + 4 <? dst_sz) then
        if unreserved c then c :: url_encode_loop src' (i + 1) dst_sz
        else pct c ++ url_encode_loop src' (i + (snprintf (dst_sz - i) (pct c)).2) dst_sz
      else []
  end.

(** The C string [url_encode(src, dst, dst_sz)] leaves in [dst]. *)
Definition url_encode (src : bytes) (dst_sz : nat) : bytes :=
  url_encode_loop src 0 dst_sz.

(** The same function on the destination array itself.  Every store is
    checked against the extent of the array. *)
Definition store (dst : bytes) (i : nat) (c : ascii) : option bytes :=
  if i <? length dst then Some (<[i := c]> dst) else None.

Fixpoint store_all (dst : bytes) (i : nat) (s : bytes) : option bytes :=
  match s with
  | [] => Some dst
  | c :: s' => dst' ← store dst i c; store_all dst' (S i) s'
  end.

(** [snprintf(dst + i, sz, ...)] into the array: nothing for [sz = 0],
    else at most [sz - 1] characters and a terminator; the result is the
    array and the length of the whole expansion. *)
Definition snprintf_into (dst : bytes) (i sz : nat) (s : bytes) : option (bytes * nat) :=
  match sz with
  | 0 => Some (dst, length s)
  | S _ =>
      let w := (snprintf sz s).1 in
      dst' ← store_all dst i (w ++ [NUL]);
      Some (dst', length s)
  end.

Fixpoint url_encode_mem (src : bytes) (i : nat) (dst : bytes) : option bytes :=
  match src with
  | [] => store dst i NUL
  | c :: src' =>
      if negb (is_nul c) && (i + 4 <? length dst) then
        if unreserved c then
          dst' ← store dst i c; url_encode_mem src' (i + 1) dst'
        else
          '(dst', n) ← snprintf_into dst i (length dst - i) (pct c);
          url_encode_mem src' (i + n) dst'
      else store dst i NUL
  end.

(** The complete encoding of a string, with no bound on its length. *)
Definition encode_byte (c : ascii) : bytes := if unreserved c then [c] else pct c.
Definition encode_all (s : bytes) : bytes := flat_map encode_byte s.

(** ** HttpClient: [http_get] *)

(** What the process does on the network, in order. *)
Inductive net_event :=
  | NetInit
  | Socket
  | Connect (port : Z)
  | Send (data : bytes)
  | Recv
  | Close
  | NetCleanup.

(** The part of the world [http_get] depends on: which calls succeed, and
    what each call of [recv] delivers (an empty chunk stands for a return
    value [<= 0]: the peer closed the connection, or an error). *)
Record network := {
  net_init_ok : bool;
  socket_ok : bool;
  connect_ok : Z -> bool;
  malloc_ok : bool;
  incoming : list bytes
}.

(** What a run leaves behind. *)
Record result := {
  exit_code : Z;
  stdout : bytes;
  stderr : bytes;
  net_trace : list net_event
}.

Definition failure (msg : bytes) (tr : list net_event) : result :=
  {| exit_code := 1; stdout := []; stderr := msg; net_trace := tr |}.

(** [htons((unsigned short)port)] names the port [port mod 2^16]. *)
Definition port16 (port : Z) : Z := port mod 65536.

(** The expansion of the format of the request. *)
Definition request_text (port : Z) (path_and_query token : bytes) : bytes :=
  if bool_decide (c_str token <> []) then
    B "GET " ++ c_str path_and_query ++ B " HTTP/1.0" ++ CRLF ++
    B "Host: localhost:" ++ dec port ++ CRLF ++
    B "Authorization: Bearer " ++ c_str token ++ CRLF ++
    B "Accept: application/json" ++ CRLF ++
    CRLF
  else
    B "GET " ++ c_str path_and_query ++ B " HTTP/1.0" ++ CRLF ++
    B "Host: localhost:" ++ dec port ++ CRLF ++
    B "Accept: application/json" ++ CRLF ++
    CRLF.

Definition REQ_SZ : nat := MAX_URL_LEN + 512.

(** [send(s, req, req_len, 0)] after [req_len = snprintf(req, sizeof(req), ...)]:
    the bytes read from [req].  The array holds the text cut to
    [REQ_SZ - 1] characters and a terminator; a longer [req_len] reads past
    its end. *)
Definition sent_bytes (text : bytes) : option bytes :=
  let '(req, req_len) := snprintf REQ_SZ text in
  if req_len <? REQ_SZ then Some req
  else if req_len =? REQ_SZ then Some (req ++ [NUL])
  else None.

(** The [recv] loop: the bytes gathered in [buf], and the number of calls. *)
Fixpoint recv_loop (chunks : list bytes) (buf : bytes) : bytes * nat :=
  match chunks with
  | [] => (buf, 1)
  | chunk :: rest =>
      let got := take (BUF_SIZE - 1 - length buf) chunk in
      match got with
      | [] => (buf, 1)
      | _ :: _ =>
          let buf' := buf ++ got in
          if BUF_SIZE - 1 <=? length buf' then (buf', 1)
          else let '(b, k) := recv_loop rest buf' in (b, S k)
      end
  end.

(** The body: what follows the first blank line, or the whole text. *)
Definition response_body (text : bytes) : bytes :=
  match strstr text (CRLF ++ CRLF) with
  | Some r => drop 4 r
  | None => text
  end.

Definition response_status (buf : bytes) : Z :=
  if strncmp_eq buf (B "HTTP/") 5 then
    match strchr (c_str buf) " "%char with
    | Some sp => atoi (drop 1 sp)
    | None => 0%Z
    end
  else 0%Z.

Definition status_exit (http_status : Z) : Z :=
  if (200 <=? http_status)%Z && (http_status <? 300)%Z then 0%Z else 1%Z.

Definition http_get (nw : network) (port : Z) (path_and_query token : bytes)
  : option result :=
  if negb (net_init_ok nw) then
    Some (failure (ln "cpljson: network init failed") [NetInit])
  else if negb (socket_ok nw) then
    Some (failure (ln "cpljson: socket() failed") [NetInit; Socket; NetCleanup])
  else if negb (connect_ok nw (port16 port)) then
    Some (failure (B "cpljson: cannot connect to localhost:" ++ dec port ++ [LF])
            [NetInit; Socket; Connect (port16 port); Close; NetCleanup])
  else
    data ← sent_bytes (request_text port path_and_query token);
    let opened := [NetInit; Socket; Connect (port16 port); Send data] in
    if negb (malloc_ok nw) then
      Some (failure [] (opened ++ [Close; NetCleanup]))
    else
      let '(buf, calls) := recv_loop (incoming nw) [] in
      let text := c_str buf in
      let body := response_body text in
      let http_status := response_status buf in
      Some {| exit_code := status_exit http_status;
              stdout := body ++ [LF];
              stderr := [];
              net_trace := opened ++ replicate calls Recv ++ [Close; NetCleanup] |}.

(** ** CommandRouter: [usage], [find_arg], [main] *)

Definition usage : bytes :=
  ln "Usage:" ++
  ln "  cpljson list  --session S --endpoint E" ++
  ln "  cpljson slice --cache C [--path P] [--max-bytes N] [--offset N]" ++
  ln "  cpljson meta  --cache C".

Fixpoint find_arg (argv : list bytes) (name : bytes) : option bytes :=
  match argv with
  | a :: rest =>
      match rest with
      | v :: _ => if strcmp_eq a name then Some v else find_arg rest name
      | [] => None
      end
  | [] => None
  end.

(** [snprintf(url + pos, sizeof(url) - pos, ...)] where the format expands
    to [s] and [url] holds the C string [cur]: the new C string and the
    returned length.  For [pos] beyond the array the pointer and the size
    are out of range. *)
Definition snprintf_at (cap : nat) (cur : bytes) (pos : nat) (s : bytes)
  : option (bytes * nat) :=
  if cap <? pos then None
  else if (pos =? cap) || (length cur <? pos) then Some (cur, length s)
  else Some (take pos cur ++ (snprintf (cap - pos) s).1, length s).

(** The request path of [slice]. *)
Definition slice_url (cache_id : bytes) (path max_bytes offset : option bytes)
  : option bytes :=
  let enc1 := url_encode cache_id ENC_SZ in
  let '(url, pos) := snprintf MAX_URL_LEN (B "/sidecar/cache/slice?cache=" ++ enc1) in
  '(url, pos) ← match path with
      | Some p =>
          let enc2 := url_encode p ENC_SZ in
          '(u, n) ← snprintf_at MAX_URL_LEN url pos (B "&path=" ++ enc2);
          Some (u, pos + n)
      | None => Some (url, pos)
      end;
  '(url, pos) ← match max_bytes with
      | Some m =>
          '(u, n) ← snprintf_at MAX_URL_LEN url pos (B "&max_bytes=" ++ c_str m);
          Some (u, pos + n)
      | None => Some (url, pos)
      end;
  match offset with
  | Some o =>
      '(u, _) ← snprintf_at MAX_URL_LEN url pos (B "&offset=" ++ c_str o);
      Some u
  | None => Some url
  end.

Definition list_url (session endpoint : bytes) : bytes :=
  let enc1 := url_encode session ENC_SZ in
  let enc2 := url_encode endpoint ENC_SZ in
  (snprintf MAX_URL_LEN
     (B "/sidecar/cache/list?session=" ++ enc1 ++ B "&endpoint=" ++ enc2)).1.

Definition meta_url (cache_id : bytes) : bytes :=
  let enc1 := url_encode cache_id ENC_SZ in
  (snprintf MAX_URL_LEN (B "/sidecar/cache/meta?cache=" ++ enc1)).1.

(** The world of one run of the program. *)
Record env := {
  fs : filesystem;
  os_cwd : option bytes;
  nw : network
}.

Definition main (e : env) (argv : list bytes) : option result :=
  if length argv <? 2 then Some (failure usage [])
  else
    let cmd := default [] (argv !! 1) in
    match find_codeplane_dir (fs e) (os_cwd e) MAX_PATH_LEN with
    | None =>
        Some (failure (ln "cpljson: .codeplane/ not found (are you in a CodePlane repo?)") [])
    | Some cpl_dir =>
        let port := read_port (fs e) cpl_dir in
        let token := read_token (fs e) cpl_dir TOKEN_SZ in
        if strcmp_eq cmd (B "list") then
          match find_arg argv (B "--session"), find_arg argv (B "--endpoint") with
          | Some session, Some endpoint =>
              http_get (nw e) port (list_url session endpoint) token
          | _, _ =>
              Some (failure (ln "cpljson list: --session and --endpoint required") [])
          end
        else if strcmp_eq cmd (B "slice") then
          match find_arg argv (B "--cache") with
          | Some cache_id =>
              url ← slice_url cache_id (find_arg argv (B "--path"))
                      (find_arg argv (B "--max-bytes")) (find_arg argv (B "--offset"));
              http_get (nw e) port url token
          | None => Some (failure (ln "cpljson slice: --cache required") [])
          end
        else if strcmp_eq cmd (B "meta") then
          match find_arg argv (B "--cache") with
          | Some cache_id => http_get (nw e) port (meta_url cache_id) token
          | None => Some (failure (ln "cpljson meta: --cache required") [])
          end
        else
          Some (failure (B "cpljson: unknown command '" ++ c_str cmd ++ ln "'" ++ usage) [])
    end.

(** ** Vocabulary of the statements *)

(** Standard percent-decoding, the other side of the round trip the spec
    states; the program has no decoder.  A [%] takes the two hexadecimal
    digits after it; every other byte stands for itself. *)
Definition hex_val (c : ascii) : option nat :=
  if between "0"%char "9"%char c then Some (code c - code "0"%char)
  else if between "A"%char "F"%char c then Some (code c - code "A"%char + 10)
  else if between "a"%char "f"%char c then Some (code c - code "a"%char + 10)
  else None.

Fixpoint percent_decode (s : bytes) : option bytes :=
  match s with
  | [] => Some []
  | c :: rest =>
      if Ascii.eqb c "%"%char then
        match rest with
        | h :: l :: rest' =>
            match hex_val h, hex_val l, percent_decode rest' with
            | Some a, Some b, Some d => Some (ascii_of_nat (16 * a + b) :: d)
            | _, _, _ => None
            end
        | _ => None
        end
      else option_map (cons c) (percent_decode rest)
  end.

(** The bytes the spec allows in an encoded value, [A-Za-z0-9._~%-]. *)
Definition encoded_char (c : ascii) : bool := unreserved c || Ascii.eqb c "%"%char.

(** A pure token in the words of the spec: digits after an optional
    sign. *)
Definition pure_token (s : bytes) : bool :=
  match s with
  | c :: r => if Ascii.eqb c "-"%char || Ascii.eqb c "+"%char
              then forallb isdigit r && negb (bool_decide (r = []))
              else forallb isdigit s
  | [] => false
  end.

(** A path component: no [/] and no NUL. *)
Definition component (c : bytes) : bool :=
  forallb (fun x => negb (is_nul x) && negb (Ascii.eqb x "/"%char)) c.

(** The absolute path [/c1/c2/.../cn] of the components [c1 ... cn]. *)
Definition abs_path (cs : list bytes) : bytes := flat_map (cons "/"%char) cs.

(** The directories from a path upward, deepest first, given its
    components deepest first.  The file system root, the path of no
    component, is not among them. *)
Fixpoint dirs_up (rcs : list bytes) : list bytes :=
  match rcs with
  | [] => []
  | _ :: up => abs_path (rev rcs) :: dirs_up up
  end.

Definition file_exists (fs : filesystem) (path : bytes) : bool :=
  match fopen fs path with Some _ => true | None => false end.

(** A directory holds the marker: [.codeplane] can be opened, or
    [.codeplane/config.yaml] can. *)
Definition has_marker (fs : filesystem) (dir : bytes) : bool :=
  file_exists fs (dir ++ B "/.codeplane") ||
  file_exists fs (dir ++ B "/.codeplane/config.yaml").

(** [needle] occurs in [text] at offset [k]. *)
Definition occurs_at (needle text : bytes) (k : nat) : bool :=
  starts_with needle (drop k text).

(** The first result among those of the elements of a list. *)
Fixpoint first_some {A R} (f : A -> option R) (l : list A) : option R :=
  match l with
  | [] => None
  | x :: l' => match f x with Some r => Some r | None => first_some f l' end
  end.

(** The value of a string of decimal digits. *)
Definition dec_value (ds : bytes) : Z :=
  fold_left (fun a c => (10 * a + digit_val c)%Z) ds 0%Z.

(** Nothing, or something that does not start with a digit. *)
Definition ends_number (rest : bytes) : Prop :=
  match rest with
  | [] => True
  | c :: _ => isdigit c = false
  end.

(** The payloads of the [send] calls of a run. *)
Definition sent (r : result) : list bytes :=
  flat_map (fun e => match e with Send d => [d] | _ => [] end) (net_trace r).

(** What the [recv] loop leaves in the buffer. *)
Definition received (nw : network) : bytes := (recv_loop (incoming nw) []).1.

(** A network on which every call succeeds and the peer answers with the
    given chunks. *)
Definition live (chunks : list bytes) : network :=
  {| net_init_ok := true; socket_ok := true; connect_ok := fun _ => true;
     malloc_ok := true; incoming := chunks |}.

(** The request in the order section 4.4 of the spec gives: the
    [Authorization] line after the [Accept] line. *)
Definition spec_request (port : Z) (path_and_query token : bytes) : bytes :=
  B "GET " ++ path_and_query ++ B " HTTP/1.0" ++ CRLF ++
  B "Host: localhost:" ++ dec port ++ CRLF ++
  B "Accept: application/json" ++ CRLF ++
  (if bool_decide (token <> []) then B "Authorization: Bearer " ++ token ++ CRLF else []) ++
  CRLF.

(** The subcommand, [argv[1]]. *)
Definition command (argv : list bytes) : bytes := default [] (argv !! 1).

(** No [argv[i]] with a successor is the name: the argument is missing. *)
Definition absent (name : bytes) (argv : list bytes) : Prop :=
  Forall (fun a => strcmp_eq a name = false) (removelast argv).

(** The command lines the router turns down. *)
Definition usage_error (argv : list bytes) : Prop :=
  length argv < 2 \/
  (strcmp_eq (command argv) (B "list") = true /\
   (absent (B "--session") argv \/ absent (B "--endpoint") argv)) \/
  (strcmp_eq (command argv) (B "slice") = true /\ absent (B "--cache") argv) \/
  (strcmp_eq (command argv) (B "meta") = true /\ absent (B "--cache") argv) \/
  (strcmp_eq (command argv) (B "list") = false /\
   strcmp_eq (command argv) (B "slice") = false /\
   strcmp_eq (command argv) (B "meta") = false).

(** The messages about the command line. *)
Definition usage_diagnostic (msg : bytes) : Prop :=
  msg = usage \/
  msg = ln "cpljson list: --session and --endpoint required" \/
  msg = ln "cpljson slice: --cache required" \/
  msg = ln "cpljson meta: --cache required" \/
  exists cmd, msg = B "cpljson: unknown command '" ++ cmd ++ ln "'" ++ usage.

(** One optional parameter of a query. *)
Definition query_part (key : string) (value : option bytes) : bytes :=
  match value with
  | Some v => B key ++ v
  | None => []
  end.

(** The request path of [slice] in full: the cache id and the path
    encoded, the two numbers as they were given. *)
Definition slice_path (cache_id : bytes) (path max_bytes offset : option bytes) : bytes :=
  B "/sidecar/cache/slice?cache=" ++ url_encode cache_id ENC_SZ ++
  query_part "&path=" (option_map (fun p => url_encode p ENC_SZ) path) ++
  query_part "&max_bytes=" (option_map c_str max_bytes) ++
  query_part "&offset=" (option_map c_str offset).

(** A line of text: no newline inside. *)
Definition no_newline (l : bytes) : Prop := Forall (fun y => Ascii.eqb y LF = false) l.

(** One piece of a file as [fgets] hands it to the scan of [config.yaml]:
    a line with its newline that fits the line buffer, or 255 bytes
    without a newline, cut out of a longer line. *)
Definition fgets_piece (p : bytes) : Prop :=
  (exists l, p = l ++ [LF] /\ no_newline l /\ length l + 1 < LINE_SZ) \/
  (no_newline p /\ length p = LINE_SZ - 1).

(** ** Sample worlds *)

(** The three roots of the spec: only [run/server.json], only
    [config.yaml], neither. *)
Definition root_dir : bytes := B "/r/.codeplane".
Definition json_only : filesystem :=
  {[ B "/r/.codeplane/run/server.json" := B "{" ++ KEY_DQ ++ B ": 9999}" ]}.
Definition yaml_only : filesystem :=
  {[ B "/r/.codeplane/config.yaml" := ln "port: 4242" ]}.
(** A root whose [run/server.json] has no key, beside a [config.yaml]
    that names a port. *)
Definition json_without_key : filesystem :=
  <[ B "/r/.codeplane/run/server.json" := B "{}" ]> yaml_only.

(** A file system whose only marker sits in the root directory. *)
Definition marker_at_root : filesystem := {[ B "/.codeplane/config.yaml" := [] ]}.

(** A project at [/p], marked by [/p/.codeplane/config.yaml]. *)
Definition project_at_p : filesystem := {[ B "/p/.codeplane/config.yaml" := [] ]}.

(** Two projects, one inside the other: [/p] marked by a directory,
    [/p/a] by a marker file. *)
Definition nested_projects : filesystem :=
  <[ B "/p/a/.codeplane" := [] ]> project_at_p.

(** A root whose only file is [run/token]. *)
Definition token_file (content : bytes) : filesystem :=
  {[ B "/r/.codeplane/run/token" := content ]}.

(** A world without any project: an empty file system, the working
    directory [/tmp]. *)
Definition outside_project : env :=
  {| fs := ∅; os_cwd := Some (B "/tmp"); nw := live [] |}.

(** A response of the daemon. *)
Definition ok_response : bytes :=
  B "HTTP/1.0 200 OK" ++ CRLF ++ B "Content-Type: application/json" ++ CRLF ++ CRLF ++
  B "{}".

(** A world with a project at [/p], the working directory three levels
    below it, and a daemon that answers. *)
Definition project_env : env :=
  {| fs := project_at_p; os_cwd := Some (B "/p/a/b/c"); nw := live [ok_response] |}.

(** What the peer delivers before [recv] first returns nothing: the
    chunks up to the first empty one, end to end. *)
Fixpoint delivered (chunks : list bytes) : bytes :=
  match chunks with
  | [] => []
  | [] :: _ => []
  | (c :: chunk) :: rest => (c :: chunk) ++ delivered rest
  end.

(** The bytes of an encoded value and the punctuation of the path
    templates. *)
Definition path_char (c : ascii) : bool :=
  encoded_char c || Ascii.eqb c "/"%char || Ascii.eqb c "?"%char ||
  Ascii.eqb c "="%char || Ascii.eqb c "&"%char.

(** A request that goes to one of the three endpoints of the program. *)
Definition endpoint_request (data : bytes) : bool :=
  starts_with (B "GET /sidecar/cache/list?session=") data ||
  starts_with (B "GET /sidecar/cache/slice?cache=") data ||
  starts_with (B "GET /sidecar/cache/meta?cache=") data.

(** * Properties *)

(** ** Bytes, one by one *)

Ltac each_byte c := destruct c as [[] [] [] [] [] [] [] []].

Lemma encoded_char_not_nul c : encoded_char c = true -> is_nul c = false.
Proof. each_byte c; vm_compute; congruence. Qed.

Lemma unreserved_encoded c : unreserved c = true -> encoded_char c = true.
Proof. unfold encoded_char. intros ->. reflexivity. Qed.

Lemma unreserved_not_percent c : unreserved c = true -> Ascii.eqb c "%"%char = false.
Proof. each_byte c; vm_compute; congruence. Qed.

Lemma pct_encoded c : forallb encoded_char (pct c) = true.
Proof. each_byte c; reflexivity. Qed.

Lemma pct_length c : length (pct c) = 3.
Proof. reflexivity. Qed.

Lemma percent_decode_pct c rest :
  percent_decode (pct c ++ rest) = option_map (cons c) (percent_decode rest).
Proof. each_byte c; reflexivity. Qed.

Lemma percent_decode_unreserved c rest :
  unreserved c = true ->
  percent_decode (c :: rest) = option_map (cons c) (percent_decode rest).
Proof. intros H. simpl. rewrite (unreserved_not_percent c H). reflexivity. Qed.

Lemma encode_byte_encoded c : forallb encoded_char (encode_byte c) = true.
Proof.
  unfold encode_byte. destruct (unreserved c) eqn:E; [|apply pct_encoded].
  simpl. rewrite (unreserved_encoded c E). reflexivity.
Qed.

Lemma encode_byte_length c : length (encode_byte c) <= 3.
Proof. unfold encode_byte. destruct (unreserved c); simpl; lia. Qed.

(** ** C strings *)

Lemma c_str_no_nul m : Forall (fun c => is_nul c = false) (c_str m).
Proof.
  induction m as [|c m IH]; simpl; [constructor|].
  destruct (is_nul c) eqn:E; constructor; assumption.
Qed.

Lemma c_str_id s : Forall (fun c => is_nul c = false) s -> c_str s = s.
Proof.
  induction 1 as [|c s Hc _ IH]; simpl; [reflexivity|]. rewrite Hc, IH. reflexivity.
Qed.

Lemma c_str_idem m : c_str (c_str m) = c_str m.
Proof. apply c_str_id, c_str_no_nul. Qed.

Lemma c_str_terminated s rest :
  Forall (fun c => is_nul c = false) s -> c_str (s ++ NUL :: rest) = s.
Proof.
  induction 1 as [|c s Hc _ IH]; simpl; [reflexivity|]. rewrite Hc, IH. reflexivity.
Qed.

Lemma c_str_length m : length (c_str m) <= length m.
Proof.
  induction m as [|c m IH]; simpl; [lia|]. destruct (is_nul c); simpl; lia.
Qed.

Lemma c_str_prefix m : c_str m `prefix_of` m.
Proof.
  induction m as [|c m IH]; simpl; [reflexivity|].
  destruct (is_nul c); [apply prefix_nil | apply prefix_cons, IH].
Qed.

(** ** QueryEncoder *)

Lemma encode_all_encoded s : Forall (fun c => encoded_char c = true) (encode_all s).
Proof.
  induction s as [|c s IH]; simpl; [constructor|].
  apply Forall_app. split; [|exact IH].
  apply Forall_forall. intros x Hx.
  pose proof (encode_byte_encoded c) as H. rewrite forallb_forall in H.
  apply H. apply list_elem_of_In. exact Hx.
Qed.

Lemma percent_decode_encode_all s : percent_decode (encode_all s) = Some s.
Proof.
  induction s as [|c s IH]; [reflexivity|].
  cbn [encode_all flat_map]. fold (encode_all s). unfold encode_byte.
  destruct (unreserved c) eqn:E.
  - cbn [app]. rewrite (percent_decode_unreserved c _ E), IH. reflexivity.
  - rewrite percent_decode_pct, IH. reflexivity.
Qed.

(** What the loop stores is the complete encoding of the bytes it got
    through: truncation falls between two source bytes. *)
Lemma url_encode_loop_prefix src i dst_sz :
  exists k, url_encode_loop src i dst_sz = encode_all (take k (c_str src)).
Proof.
  revert i; induction src as [|c src IH]; intros i; simpl.
  - exists 0. reflexivity.
  - destruct (is_nul c) eqn:Hc; simpl; [exists 0; reflexivity|].
    destruct (i + 4 <? dst_sz); [|exists 0; reflexivity].
    destruct (unreserved c) eqn:Hu.
    + destruct (IH (i + 1)) as [k Hk]. exists (S k). simpl.
      unfold encode_byte. rewrite Hu, Hk. reflexivity.
    + destruct (IH (i + 3)) as [k Hk]. exists (S k).
      cbn [take encode_all flat_map]. unfold encode_byte at 1. rewrite Hu.
      fold (encode_all (take k (c_str src))). rewrite <- Hk. reflexivity.
Qed.

Lemma url_encode_loop_encoded src i dst_sz :
  Forall (fun c => encoded_char c = true) (url_encode_loop src i dst_sz).
Proof.
  destruct (url_encode_loop_prefix src i dst_sz) as [k ->]. apply encode_all_encoded.
Qed.

(** The loop stops one short of the end of the array at the latest. *)
Lemma url_encode_loop_bound src i dst_sz :
  i < dst_sz -> i + length (url_encode_loop src i dst_sz) < dst_sz.
Proof.
  revert i; induction src as [|c src IH]; intros i Hi; simpl; [lia|].
  destruct (negb (is_nul c) && (i + 4 <? dst_sz)) eqn:Hgo; simpl; [|lia].
  apply andb_true_iff in Hgo as [_ Hlt]. apply Nat.ltb_lt in Hlt.
  destruct (unreserved c).
  - simpl. specialize (IH (i + 1)). lia.
  - simpl. specialize (IH (i + 3)). lia.
Qed.

(** With room for three bytes for each source byte nothing is cut. *)
Lemma url_encode_loop_complete src i dst_sz :
  i + 3 * length (c_str src) + 1 < dst_sz ->
  url_encode_loop src i dst_sz = encode_all (c_str src).
Proof.
  revert i; induction src as [|c src IH]; intros i Hi; simpl; [reflexivity|].
  simpl in Hi. destruct (is_nul c) eqn:Hc; simpl; [reflexivity|].
  simpl in Hi. destruct (Nat.ltb_spec (i + 4) dst_sz) as [_|Hge]; [|lia].
  unfold encode_byte. destruct (unreserved c).
  - simpl. rewrite (IH (i + 1)); [reflexivity|lia].
  - rewrite (IH (i + 3)); [reflexivity|lia].
Qed.

(** *** The destination array *)

Lemma store_spec dst i c :
  i < length dst -> store dst i c = Some (take i dst ++ c :: drop (S i) dst).
Proof.
  intros Hi. unfold store. destruct (Nat.ltb_spec i (length dst)); [|lia].
  rewrite insert_take_drop by lia. reflexivity.
Qed.

Lemma take_past {A} (p q : list A) n : length p = n -> take n (p ++ q) = p.
Proof. intros <-. apply take_app_length. Qed.

Lemma drop_past {A} (p q : list A) n m :
  length p = n -> drop (n + m) (p ++ q) = drop m q.
Proof. intros <-. apply drop_app_add. Qed.

Lemma store_all_spec s : forall dst i,
  i + length s <= length dst ->
  store_all dst i s = Some (take i dst ++ s ++ drop (i + length s) dst).
Proof.
  induction s as [|c s IH]; intros dst i Hi; simpl in *.
  - rewrite Nat.add_0_r, take_drop. reflexivity.
  - rewrite store_spec by lia. simpl.
    assert (Hlen : length (take i dst ++ [c]) = S i)
      by (rewrite length_app, length_take; simpl; lia).
    replace (take i dst ++ c :: drop (S i) dst)
      with ((take i dst ++ [c]) ++ drop (S i) dst)
      by (rewrite <- app_assoc; reflexivity).
    rewrite IH by (rewrite length_app, Hlen, length_drop; lia).
    rewrite (take_past _ _ (S i) Hlen), (drop_past _ _ (S i) _ Hlen), drop_drop.
    rewrite <- app_assoc. simpl.
    replace (S (i + length s)) with (i + S (length s)) by lia. reflexivity.
Qed.

(** The array after [url_encode]: untouched below [i], then the encoded
    text and its terminator, untouched above. *)
Lemma url_encode_mem_spec src : forall i dst,
  i < length dst ->
  url_encode_mem src i dst =
    Some (take i dst ++ url_encode_loop src i (length dst) ++
          NUL :: drop (i + length (url_encode_loop src i (length dst)) + 1) dst).
Proof.
  induction src as [|c src IH]; intros i dst Hi.
  - simpl. rewrite store_spec by lia.
    replace (i + 0 + 1) with (S i) by lia. reflexivity.
  - cbn [url_encode_mem url_encode_loop].
    destruct (negb (is_nul c) && (i + 4 <? length dst)) eqn:Hgo.
    2:{ simpl. rewrite store_spec by lia.
        replace (i + 0 + 1) with (S i) by lia. reflexivity. }
    apply andb_true_iff in Hgo as [_ Hlt]. apply Nat.ltb_lt in Hlt.
    destruct (unreserved c).
    + rewrite store_spec by lia. cbn [mbind option_bind].
      assert (Hlen : length (take i dst ++ [c]) = i + 1)
        by (rewrite length_app, length_take; simpl; lia).
      replace (take i dst ++ c :: drop (S i) dst)
        with ((take i dst ++ [c]) ++ drop (S i) dst)
        by (rewrite <- app_assoc; reflexivity).
      set (dst1 := (take i dst ++ [c]) ++ drop (S i) dst).
      assert (Hl1 : length dst1 = length dst)
        by (unfold dst1; rewrite length_app, Hlen, length_drop; lia).
      rewrite IH by lia. rewrite Hl1.
      set (out := url_encode_loop src (i + 1) (length dst)).
      unfold dst1. rewrite (take_past _ _ (i + 1) Hlen).
      rewrite <- Nat.add_assoc, (drop_past _ _ (i + 1) _ Hlen), drop_drop.
      rewrite <- app_assoc. simpl.
      replace (S (i + (length out + 1))) with (i + S (length out) + 1) by lia.
      reflexivity.
    + unfold snprintf_into.
      destruct (length dst - i) as [|n] eqn:Hsz; [lia|].
      assert (Hw : (snprintf (S n) (pct c)).1 = pct c).
      { unfold snprintf. cbn [fst]. apply take_ge. rewrite pct_length. lia. }
      rewrite Hw. rewrite store_all_spec by (rewrite length_app, pct_length; simpl; lia).
      cbn [mbind option_bind]. cbn [snprintf snd]. rewrite pct_length.
      rewrite length_app, pct_length. cbn [length].
      assert (Hlen : length (take i dst ++ pct c) = i + 3)
        by (rewrite length_app, length_take, pct_length; lia).
      replace (take i dst ++ (pct c ++ [NUL]) ++ drop (i + (3 + 1)) dst)
        with ((take i dst ++ pct c) ++ NUL :: drop (i + (3 + 1)) dst)
        by (rewrite <- !app_assoc; reflexivity).
      set (dst1 := (take i dst ++ pct c) ++ NUL :: drop (i + (3 + 1)) dst).
      assert (Hl1 : length dst1 = length dst).
      { unfold dst1. rewrite length_app, Hlen. simpl. rewrite length_drop. lia. }
      rewrite IH by lia. rewrite Hl1.
      set (out := url_encode_loop src (i + 3) (length dst)).
      unfold dst1. rewrite (take_past _ _ (i + 3) Hlen).
      rewrite <- Nat.add_assoc, (drop_past _ _ (i + 3) _ Hlen).
      rewrite Nat.add_1_r. cbn [drop]. rewrite drop_drop.
      rewrite <- !app_assoc, length_app, pct_length.
      replace (i + (3 + 1) + length out) with (i + (3 + length out) + 1) by lia.
      reflexivity.
Qed.

(** C10.  For every source string and every destination array of at
    least one byte, [url_encode] stores nothing outside the array: it
    leaves the array at its size, holding the encoded text and a NUL right
    after it, and everything behind that NUL as it was.  The text and its
    NUL take at most the capacity; the text is the complete encoding of
    an initial part of the source, so a source that does not fit is cut
    between two of its bytes. *)
Theorem url_encode_within_capacity (src dst : bytes) :
  1 <= length dst ->
  let out := url_encode src (length dst) in
  exists dst',
    url_encode_mem src 0 dst = Some dst' /\
    length dst' = length dst /\
    length out + 1 <= length dst /\
    c_str dst' = out /\
    dst' !! length out = Some NUL /\
    drop (length out + 1) dst' = drop (length out + 1) dst /\
    exists k, out = encode_all (take k (c_str src)).
Proof.
  intros Hsz out.
  pose proof (url_encode_loop_bound src 0 (length dst) ltac:(lia)) as Hb.
  fold (url_encode src (length dst)) in Hb. fold out in Hb.
  assert (Hnn : Forall (fun c => is_nul c = false) out).
  { eapply Forall_impl; [apply url_encode_loop_encoded|].
    intros c Hc. exact (encoded_char_not_nul c Hc). }
  eexists. split; [rewrite url_encode_mem_spec by lia; reflexivity|].
  fold (url_encode src (length dst)). fold out. cbn [Nat.add].
  rewrite take_0. cbn [app].
  repeat split.
  - rewrite length_app. simpl. rewrite length_drop. lia.
  - lia.
  - apply c_str_terminated, Hnn.
  - apply list_lookup_middle. reflexivity.
  - rewrite (cons_middle NUL out), app_assoc.
    rewrite <- (Nat.add_0_r (length out + 1)) at 1.
    rewrite (drop_past _ _ (length out + 1) 0); [reflexivity|].
    rewrite length_app. reflexivity.
  - apply url_encode_loop_prefix.
Qed.

Lemma url_encode_within_capacity_witness :
  exists dst',
    url_encode_mem (B "a b/c") 0 (replicate 8 "x"%char) = Some dst' /\
    c_str dst' = B "a%20" /\ length dst' = 8.
Proof.
  destruct (url_encode_within_capacity (B "a b/c") (replicate 8 "x"%char))
    as (dst' & Hrun & Hlen & _ & Hstr & _).
  - vm_compute. lia.
  - exists dst'. split; [exact Hrun|]. split; [exact Hstr | exact Hlen].
Defined.

(** C3, as the code has it.  For every source string and capacity the
    output holds no byte outside [A-Za-z0-9._~%-], and it is the encoding
    of an initial part of the source: an unreserved byte as itself, any
    other byte as [%XX] in upper-case hexadecimal.  When the capacity
    exceeds three times the length of the source by more than one, nothing
    is cut and percent-decoding the output gives the source back. *)
Theorem url_encode_charset_roundtrip (src : bytes) (dst_sz : nat) :
  Forall (fun c => encoded_char c = true) (url_encode src dst_sz) /\
  (exists k, url_encode src dst_sz = encode_all (take k (c_str src))) /\
  (3 * length (c_str src) + 1 < dst_sz ->
   url_encode src dst_sz = encode_all (c_str src) /\
   percent_decode (url_encode src dst_sz) = Some (c_str src)).
Proof.
  split; [apply url_encode_loop_encoded|].
  split; [apply url_encode_loop_prefix|].
  intros Hroom. unfold url_encode.
  rewrite url_encode_loop_complete by lia.
  split; [reflexivity | apply percent_decode_encode_all].
Qed.

Lemma url_encode_charset_roundtrip_witness :
  3 * length (c_str (B "a b/y")) + 1 < ENC_SZ /\
  url_encode (B "a b/y") ENC_SZ = B "a%20b%2Fy" /\
  percent_decode (url_encode (B "a b/y") ENC_SZ) = Some (B "a b/y").
Proof.
  assert (H : 3 * length (c_str (B "a b/y")) + 1 < ENC_SZ) by (vm_compute; lia).
  split; [exact H|].
  destruct (url_encode_charset_roundtrip (B "a b/y") ENC_SZ) as (_ & _ & Hrt).
  destruct (Hrt H) as [Hall Hdec].
  split; [rewrite Hall; reflexivity | exact Hdec].
Defined.

(** C3 as the spec words it fails: a source shorter than the capacity can
    still be cut.  Seven letters into eight bytes leave four letters. *)
Lemma url_encode_roundtrip_cut :
  length (B "abcdefg") < 8 /\
  url_encode (B "abcdefg") 8 = B "abcd" /\
  percent_decode (url_encode (B "abcdefg") 8) <> Some (B "abcdefg").
Proof.
  split; [vm_compute; lia|]. split; [reflexivity|]. vm_compute. discriminate.
Qed.

(** ** ConfigLocator *)

Lemma find_codeplane_loop_step fs out_sz cwd :
  find_codeplane_loop fs out_sz cwd =
    match fopen fs (probe_marker cwd) with
    | Some _ => Some (marker_path out_sz cwd)
    | None =>
        match fopen fs (probe_config cwd) with
        | Some _ => Some (marker_path out_sz cwd)
        | None =>
            match strrchr cwd "/"%char with
            | Some (S k) => find_codeplane_loop fs out_sz (take (S k) cwd)
            | _ => None
            end
        end
    end.
Proof.
  rewrite find_codeplane_loop_equation_1.
  destruct (fopen fs (probe_marker cwd)); simpl; [reflexivity|].
  destruct (fopen fs (probe_config cwd)); simpl; [reflexivity|].
  destruct (strrchr cwd "/"%char) as [[|k]|]; reflexivity.
Qed.

Lemma strrchr_absent c x : Forall (fun y => Ascii.eqb y x = false) c -> strrchr c x = None.
Proof.
  induction 1 as [|y c Hy _ IH]; simpl; [reflexivity|]. rewrite IH, Hy. reflexivity.
Qed.

Lemma strrchr_last p c x :
  Forall (fun y => Ascii.eqb y x = false) c -> strrchr (p ++ x :: c) x = Some (length p).
Proof.
  intros Hc. induction p as [|y p IH]; simpl.
  - rewrite (strrchr_absent c x Hc), Ascii.eqb_refl. reflexivity.
  - rewrite IH. reflexivity.
Qed.

Lemma component_no_slash c :
  component c = true -> Forall (fun y => Ascii.eqb y "/"%char = false) c.
Proof.
  unfold component. rewrite forallb_forall. intros H. apply Forall_forall.
  intros y Hy. apply list_elem_of_In in Hy. specialize (H y Hy).
  apply andb_true_iff in H as [_ H]. apply negb_true_iff in H. exact H.
Qed.

Lemma component_no_nul c :
  component c = true -> Forall (fun y => is_nul y = false) c.
Proof.
  unfold component. rewrite forallb_forall. intros H. apply Forall_forall.
  intros y Hy. apply list_elem_of_In in Hy. specialize (H y Hy).
  apply andb_true_iff in H as [H _]. apply negb_true_iff in H. exact H.
Qed.

Lemma abs_path_snoc cs c : abs_path (cs ++ [c]) = abs_path cs ++ "/"%char :: c.
Proof.
  unfold abs_path. rewrite flat_map_app. simpl. rewrite app_nil_r. reflexivity.
Qed.

Lemma abs_path_no_nul cs :
  Forall (fun c => component c = true) cs ->
  Forall (fun y => is_nul y = false) (abs_path cs).
Proof.
  induction 1 as [|c cs Hc _ IH]; simpl; [constructor|].
  constructor; [reflexivity|]. apply Forall_app. split; [|exact IH].
  apply component_no_nul, Hc.
Qed.

Lemma snprintf_fits sz s : length s < sz -> (snprintf sz s).1 = s.
Proof. intros H. unfold snprintf. cbn [fst]. apply take_ge. lia. Qed.

Lemma marker_length : length (B "/.codeplane") = 11.
Proof. reflexivity. Qed.

Lemma config_length : length (B "/.codeplane/config.yaml") = 23.
Proof. reflexivity. Qed.

(** From a path of at least one component the loop reports the first
    directory, going up, that holds the marker; it gives up below the
    file system root, which it does not examine. *)
Lemma find_codeplane_loop_walk fs rcs :
  rcs <> [] ->
  Forall (fun c => component c = true) rcs ->
  length (abs_path (rev rcs)) + 24 <= MAX_PATH_LEN ->
  find_codeplane_loop fs MAX_PATH_LEN (abs_path (rev rcs)) =
    option_map (fun d => d ++ B "/.codeplane") (find (has_marker fs) (dirs_up rcs)).
Proof.
  induction rcs as [|c up IH]; [congruence|]. intros _ Hcomp Hlen.
  apply Forall_cons in Hcomp as [Hc Hup].
  cbn [dirs_up find]. cbn [rev] in *. rewrite abs_path_snoc in *.
  set (cwd := abs_path (rev up) ++ "/"%char :: c) in *.
  rewrite find_codeplane_loop_step.
  unfold probe_marker, probe_config, marker_path.
  rewrite !snprintf_fits
    by (rewrite length_app, ?marker_length, ?config_length; lia).
  unfold has_marker at 1. unfold file_exists.
  destruct (fopen fs (cwd ++ B "/.codeplane")); [reflexivity|].
  destruct (fopen fs (cwd ++ B "/.codeplane/config.yaml")); [reflexivity|].
  cbn [orb]. unfold cwd at 1.
  rewrite strrchr_last by (apply component_no_slash, Hc).
  destruct up as [|c' up']; [reflexivity|].
  assert (Hpos : exists k, length (abs_path (rev (c' :: up'))) = S k).
  { cbn [rev]. rewrite abs_path_snoc, length_app. cbn [length].
    eexists. rewrite Nat.add_succ_r. reflexivity. }
  destruct Hpos as [k Hk]. rewrite Hk.
  unfold cwd. rewrite (take_past _ _ (S k) Hk).
  apply IH; [discriminate | exact Hup |].
  unfold cwd in Hlen. rewrite length_app in Hlen. lia.
Qed.

Lemma getcwd_fits d :
  Forall (fun y => is_nul y = false) d -> length d < MAX_PATH_LEN ->
  getcwd (Some d) MAX_PATH_LEN = Some d.
Proof.
  intros Hd Hlen. unfold getcwd. rewrite (c_str_id d Hd).
  destruct (Nat.ltb_spec (length d) MAX_PATH_LEN); [reflexivity|lia].
Qed.

(** The walk of [find_codeplane_dir] from an absolute working directory:
    the result is [<dir>/.codeplane] for the first directory, from the
    working directory upward and short of the file system root, that holds
    the marker, and -1 when none of these does. *)
Lemma find_codeplane_dir_walk fs cs :
  cs <> [] ->
  Forall (fun c => component c = true) cs ->
  length (abs_path cs) + 24 <= MAX_PATH_LEN ->
  find_codeplane_dir fs (Some (abs_path cs)) MAX_PATH_LEN =
    option_map (fun d => d ++ B "/.codeplane") (find (has_marker fs) (dirs_up (rev cs))).
Proof.
  intros Hne Hcomp Hlen. unfold find_codeplane_dir.
  rewrite getcwd_fits by (first [apply abs_path_no_nul, Hcomp | lia]).
  rewrite <- (rev_involutive cs) at 1.
  apply find_codeplane_loop_walk.
  - intros E. apply Hne. rewrite <- (rev_involutive cs), E. reflexivity.
  - apply Forall_rev, Hcomp.
  - rewrite rev_involutive. exact Hlen.
Qed.

(** With no marker anywhere the walk ends in -1, wherever it starts. *)
Lemma find_codeplane_loop_none fs out_sz :
  (forall p, fopen fs p = None) ->
  forall n cwd, length cwd <= n -> find_codeplane_loop fs out_sz cwd = None.
Proof.
  intros Hfs. induction n as [|n IH]; intros cwd Hn;
    rewrite find_codeplane_loop_step, !Hfs.
  - destruct cwd; [reflexivity|simpl in Hn; lia].
  - destruct (strrchr cwd "/"%char) as [[|k]|] eqn:E; try reflexivity.
    apply IH. apply strrchr_lt in E. rewrite length_take. lia.
Qed.

(** ** Searching text *)

Lemma starts_with_app p s : starts_with p (p ++ s) = true.
Proof.
  induction p as [|a p IH]; simpl; [reflexivity|]. rewrite Ascii.eqb_refl. exact IH.
Qed.

Lemma starts_with_split p s : starts_with p s = true -> s = p ++ drop (length p) s.
Proof.
  revert s; induction p as [|a p IH]; intros s H; [reflexivity|].
  destruct s as [|b s]; [discriminate|]. simpl in H.
  apply andb_true_iff in H as [Hab H]. apply Ascii.eqb_eq in Hab as ->.
  simpl. f_equal. apply IH, H.
Qed.

Lemma strstr_first pre needle post :
  (forall k, k < length pre -> occurs_at needle (pre ++ needle ++ post) k = false) ->
  strstr (pre ++ needle ++ post) needle = Some (needle ++ post).
Proof.
  induction pre as [|x pre IH]; intros Hfirst.
  - cbn [app]. destruct (needle ++ post) as [|y r] eqn:E.
    + apply app_eq_nil in E as [-> ->]. reflexivity.
    + cbn [strstr]. rewrite <- E, starts_with_app. reflexivity.
  - cbn [app strstr].
    pose proof (Hfirst 0 ltac:(simpl; lia)) as H0. unfold occurs_at in H0.
    cbn [drop app] in H0. rewrite H0. apply IH.
    intros k Hk. apply (Hfirst (S k)). simpl. lia.
Qed.

Lemma strstr_none hay needle :
  (forall k, occurs_at needle hay k = false) -> strstr hay needle = None.
Proof.
  induction hay as [|x hay IH]; intros Hno.
  - cbn [strstr]. pose proof (Hno 0) as H0. unfold occurs_at in H0.
    cbn [drop] in H0. rewrite H0. reflexivity.
  - cbn [strstr]. pose proof (Hno 0) as H0. unfold occurs_at in H0.
    cbn [drop] in H0. rewrite H0. apply IH. intros k. apply (Hno (S k)).
Qed.

Lemma strchr_first p c post :
  Forall (fun y => Ascii.eqb y c = false) p ->
  strchr (p ++ c :: post) c = Some (c :: post).
Proof.
  induction 1 as [|y p Hy _ IH]; simpl.
  - rewrite Ascii.eqb_refl. reflexivity.
  - rewrite Hy. exact IH.
Qed.

Lemma strchr_none s c : Forall (fun y => Ascii.eqb y c = false) s -> strchr s c = None.
Proof.
  induction 1 as [|y p Hy _ IH]; simpl; [reflexivity|]. rewrite Hy. exact IH.
Qed.

(** ** ConfigResolver: the port *)

Lemma scan_config_lines_step stream :
  scan_config_lines stream =
    match fgets LINE_SZ stream with
    | None => None
    | Some (line, rest) =>
        match sscanf_port (c_str line) with
        | Some p => Some p
        | None => scan_config_lines rest
        end
    end.
Proof.
  funelim (scan_config_lines stream); rewrite e; try rewrite Heq; reflexivity.
Qed.

Lemma fgets_take_line l : forall k rest,
  no_newline l -> length l < k ->
  fgets_take k (l ++ LF :: rest) = (l ++ [LF], rest).
Proof.
  induction l as [|y l IH]; intros k rest Hl Hk.
  - destruct k; [simpl in Hk; lia|]. reflexivity.
  - destruct k; [simpl in Hk; lia|]. apply Forall_cons in Hl as [Hy Hl].
    cbn [app fgets_take]. rewrite Hy, IH by (simpl in Hk; first [assumption|lia]).
    reflexivity.
Qed.

Lemma fgets_take_rest l : forall k,
  no_newline l -> length l <= k -> fgets_take k l = (l, []).
Proof.
  induction l as [|y l IH]; intros k Hl Hk.
  - destruct k; reflexivity.
  - destruct k; [simpl in Hk; lia|]. apply Forall_cons in Hl as [Hy Hl].
    cbn [fgets_take]. rewrite Hy, IH by (simpl in Hk; first [assumption|lia]).
    reflexivity.
Qed.

(** A file of lines shorter than the line buffer is scanned line by
    line, its unterminated tail last. *)
Lemma scan_config_lines_lines lines tail :
  Forall (fun l => no_newline l /\ length l + 1 < LINE_SZ) lines ->
  no_newline tail -> length tail < LINE_SZ ->
  scan_config_lines (flat_map (fun l => l ++ [LF]) lines ++ tail) =
    first_some (fun chunk => sscanf_port (c_str chunk))
      (map (fun l => l ++ [LF]) lines ++ [tail]).
Proof.
  intros Hlines Htail Hlen. induction Hlines as [|l lines [Hl Hn] _ IH].
  - cbn [flat_map map app first_some]. rewrite scan_config_lines_step.
    destruct tail as [|y tail]; [reflexivity|].
    unfold fgets. rewrite fgets_take_rest by (first [assumption | unfold LINE_SZ in *; lia]).
    destruct (sscanf_port (c_str (y :: tail))); [reflexivity|].
    rewrite scan_config_lines_step. reflexivity.
  - cbn [flat_map map app first_some]. rewrite scan_config_lines_step.
    rewrite <- !app_assoc. cbn [app].
    assert (Hfg : fgets LINE_SZ (l ++ LF :: flat_map (fun l => l ++ [LF]) lines ++ tail)
                  = Some (l ++ [LF], flat_map (fun l => l ++ [LF]) lines ++ tail)).
    { unfold fgets. destruct (l ++ LF :: _) eqn:E; [destruct l; discriminate|].
      rewrite <- E. f_equal. apply fgets_take_line; [assumption|]. unfold LINE_SZ in *. lia. }
    rewrite Hfg. destruct (sscanf_port (c_str (l ++ [LF]))); [reflexivity|exact IH].
Qed.

Lemma fgets_take_full l rest :
  no_newline l -> fgets_take (length l) (l ++ rest) = (l, rest).
Proof.
  induction 1 as [|c l Hc _ IH]; [destruct rest; reflexivity|].
  cbn [length app fgets_take]. rewrite Hc, IH. reflexivity.
Qed.

Lemma fgets_full_piece piece rest :
  no_newline piece -> length piece = LINE_SZ - 1 ->
  fgets LINE_SZ (piece ++ rest) = Some (piece, rest).
Proof.
  intros Hnl Hlen. unfold fgets. destruct (piece ++ rest) as [|x s] eqn:E.
  - apply app_eq_nil in E as [-> _]. vm_compute in Hlen. discriminate.
  - rewrite <- E, <- Hlen, fgets_take_full by exact Hnl. reflexivity.
Qed.

Lemma fgets_line l rest :
  no_newline l -> length l + 1 < LINE_SZ ->
  fgets LINE_SZ ((l ++ [LF]) ++ rest) = Some (l ++ [LF], rest).
Proof.
  intros Hnl Hlen. rewrite <- app_assoc. cbn [app]. unfold fgets.
  destruct (l ++ LF :: rest) eqn:E; [destruct l; discriminate|].
  rewrite <- E. f_equal. apply fgets_take_line; [assumption|].
  unfold LINE_SZ in *. lia.
Qed.

(** A file cut into the pieces of [fgets] is scanned piece by piece, its
    unterminated tail last. *)
Lemma scan_config_lines_pieces pieces tail :
  Forall fgets_piece pieces ->
  no_newline tail -> length tail < LINE_SZ ->
  scan_config_lines (concat pieces ++ tail) =
    first_some (fun chunk => sscanf_port (c_str chunk)) (pieces ++ [tail]).
Proof.
  intros Hpieces Htail Hlen. induction Hpieces as [|p pieces Hp _ IH].
  - exact (scan_config_lines_lines [] tail (List.Forall_nil _) Htail Hlen).
  - cbn [concat app first_some]. rewrite scan_config_lines_step, <- app_assoc.
    assert (Hfg : fgets LINE_SZ (p ++ concat pieces ++ tail)
                  = Some (p, concat pieces ++ tail)).
    { destruct Hp as [(l & -> & Hnl & Hl)|[Hnl Hl]].
      - apply fgets_line; assumption.
      - apply fgets_full_piece; assumption. }
    rewrite Hfg. destruct (sscanf_port (c_str p)); [reflexivity|exact IH].
Qed.

Lemma fgets_take_shape k : forall s,
  s = (fgets_take k s).1 ++ (fgets_take k s).2 /\
  ((exists l, (fgets_take k s).1 = l ++ [LF] /\ no_newline l /\ length l < k) \/
   (no_newline (fgets_take k s).1 /\ length (fgets_take k s).1 = k) \/
   (no_newline (fgets_take k s).1 /\ length (fgets_take k s).1 < k /\
    (fgets_take k s).2 = [])).
Proof.
  induction k as [|k IH]; intros s.
  - cbn [fgets_take fst snd]. split; [reflexivity|].
    right. left. split; [constructor|reflexivity].
  - destruct s as [|c s]; cbn [fgets_take].
    + cbn [fst snd]. split; [reflexivity|]. right. right.
      split; [constructor|]. split; [simpl; lia|reflexivity].
    + destruct (Ascii.eqb_spec c LF) as [->|Hc].
      * cbn [fst snd]. split; [reflexivity|]. left. exists [].
        split; [reflexivity|]. split; [constructor|simpl; lia].
      * apply Ascii.eqb_neq in Hc. destruct (IH s) as [Hs Hshape].
        destruct (fgets_take k s) as [l r]. cbn [fst snd] in *.
        split; [rewrite Hs at 1; reflexivity|].
        destruct Hshape as [(l' & -> & Hnl & Hl)|[[Hnl Hl]|(Hnl & Hl & Hr)]].
        -- left. exists (c :: l'). split; [reflexivity|].
           split; [constructor; assumption|simpl; lia].
        -- right. left. split; [constructor; assumption|simpl; lia].
        -- right. right. split; [constructor; assumption|].
           split; [simpl; lia|exact Hr].
Qed.

(** Every file is such a sequence of pieces and a tail. *)
Lemma config_pieces_exist : forall n content,
  length content <= n ->
  exists pieces tail,
    content = concat pieces ++ tail /\ Forall fgets_piece pieces /\
    no_newline tail /\ length tail < LINE_SZ.
Proof.
  induction n as [|n IH]; intros content Hn.
  { destruct content; [|simpl in Hn; lia]. exists [], [].
    repeat split; [constructor..|unfold LINE_SZ; simpl; lia]. }
  destruct content as [|c content].
  { exists [], []. repeat split; [constructor..|unfold LINE_SZ; simpl; lia]. }
  destruct (fgets_take_shape (LINE_SZ - 1) (c :: content)) as [Hs Hshape].
  pose proof (fgets_take_nonempty 254 c content) as Hne.
  change (S 254) with (LINE_SZ - 1) in Hne.
  destruct (fgets_take (LINE_SZ - 1) (c :: content)) as [l r]. cbn [fst snd] in *.
  assert (Hr : length r <= n).
  { apply (f_equal length) in Hs. rewrite length_app in Hs. cbn [length] in *.
    destruct l; [congruence|]. cbn [length] in Hs. lia. }
  destruct Hshape as [(l' & -> & Hnl & Hl)|[[Hnl Hl]|(Hnl & Hl & ->)]].
  - destruct (IH r Hr) as (pieces & tail & -> & Hp & Ht & Htl).
    exists ((l' ++ [LF]) :: pieces), tail. cbn [concat].
    split; [rewrite Hs, <- !app_assoc; reflexivity|].
    split; [|split; assumption]. constructor; [|exact Hp].
    left. exists l'. split; [reflexivity|]. split; [exact Hnl|].
    unfold LINE_SZ in *. lia.
  - destruct (IH r Hr) as (pieces & tail & -> & Hp & Ht & Htl).
    exists (l :: pieces), tail. cbn [concat].
    split; [rewrite Hs, <- !app_assoc; reflexivity|].
    split; [|split; assumption]. constructor; [|exact Hp].
    right. split; assumption.
  - exists [], l. cbn [concat app]. rewrite app_nil_r in Hs.
    split; [exact Hs|]. split; [constructor|]. split; [exact Hnl|].
    unfold LINE_SZ in *. lia.
Qed.

(** *** The port is an [int] *)

Lemma to_int_range v : (INT_MIN <= to_int v <= INT_MAX)%Z.
Proof.
  unfold to_int, INT_MIN, INT_MAX.
  pose proof (Z.mod_pos_bound (v + 2 ^ 31) (2 ^ 32) ltac:(lia)). lia.
Qed.

Lemma to_int_fits v : (INT_MIN <= v <= INT_MAX)%Z -> to_int (to_long v) = v.
Proof.
  unfold to_int, to_long, INT_MIN, INT_MAX, LONG_MIN, LONG_MAX. intros Hv.
  rewrite Z.min_r, Z.max_r by lia. rewrite Z.mod_small by lia. lia.
Qed.

Lemma signed_val_range s v : signed_val s = Some v -> (INT_MIN <= v <= INT_MAX)%Z.
Proof.
  unfold signed_val.
  destruct (match s with
            | [] => (false, s)
            | c :: r => if Ascii.eqb c "-"%char then (true, r)
                        else if Ascii.eqb c "+"%char then (false, r) else (false, s)
            end) as [neg r].
  destruct r as [|d r]; [discriminate|]. destruct (isdigit d); [|discriminate].
  intros [= <-]. apply to_int_range.
Qed.

Lemma atoi_range s : (INT_MIN <= atoi s <= INT_MAX)%Z.
Proof.
  unfold atoi. destruct (signed_val (skip_space s)) as [v|] eqn:E.
  - exact (signed_val_range _ _ E).
  - unfold INT_MIN, INT_MAX. simpl. lia.
Qed.

(** Numbers beyond the range of [int]: the value is cut to [long] first
    and then to its low 32 bits. *)
Lemma atoi_beyond_int :
  atoi (B "99999999999") = 1215752191%Z /\
  atoi (B "2147483648") = (-2147483648)%Z /\
  atoi (B "4294967496") = 200%Z /\
  atoi (B "99999999999999999999") = (-1)%Z /\
  atoi (B "-99999999999999999999") = 0%Z /\
  sscanf_port (B "port: 4294975073") = Some 7777%Z.
Proof. repeat split; vm_compute; reflexivity. Qed.

Lemma scan_config_lines_range : forall n stream v,
  length stream <= n ->
  scan_config_lines stream = Some v -> (INT_MIN <= v <= INT_MAX)%Z.
Proof.
  induction n as [|n IH]; intros stream v Hn; rewrite scan_config_lines_step.
  - destruct stream; [discriminate|simpl in Hn; lia].
  - destruct (fgets LINE_SZ stream) as [[line rest]|] eqn:E; [|discriminate].
    apply fgets_progress in E.
    destruct (sscanf_port (c_str line)) as [p|] eqn:Hp.
    + intros [= <-]. unfold sscanf_port in Hp.
      destruct (starts_with _ _); [|discriminate].
      exact (signed_val_range _ _ Hp).
    + apply IH. lia.
Qed.

Lemma read_port_range fs root : (INT_MIN <= read_port fs root <= INT_MAX)%Z.
Proof.
  assert (Hdef : (INT_MIN <= DEFAULT_PORT <= INT_MAX)%Z)
    by (unfold INT_MIN, INT_MAX, DEFAULT_PORT; lia).
  unfold read_port.
  destruct (fopen fs _) as [content|].
  - unfold scan_server_json.
    destruct (match strstr _ KEY_DQ with Some r => Some r | None => _ end) as [r|];
      [|exact Hdef].
    destruct (strchr r ":"%char); [apply atoi_range|exact Hdef].
  - destruct (fopen fs _) as [content|]; [|exact Hdef].
    destruct (scan_config_lines content) as [v|] eqn:E; [|exact Hdef].
    exact (scan_config_lines_range _ _ _ (le_n _) E).
Qed.

(** *** Integers in text *)

Lemma isdigit_plain c :
  isdigit c = true ->
  isspace c = false /\ Ascii.eqb c "-"%char = false /\ Ascii.eqb c "+"%char = false.
Proof. each_byte c; vm_compute; intros; try discriminate; auto. Qed.

Lemma skip_space_app ws r :
  Forall (fun c => isspace c = true) ws -> skip_space (ws ++ r) = skip_space r.
Proof. induction 1 as [|c ws Hc _ IH]; simpl; [reflexivity|]. rewrite Hc. exact IH. Qed.

Lemma digits_val_app ds : forall acc rest,
  Forall (fun c => isdigit c = true) ds -> ends_number rest ->
  digits_val acc (ds ++ rest) =
    fold_left (fun a c => (10 * a + digit_val c)%Z) ds acc.
Proof.
  induction ds as [|d ds IH]; intros acc rest Hds Hrest.
  - destruct rest as [|c rest]; simpl in *; [reflexivity|]. rewrite Hrest. reflexivity.
  - apply Forall_cons in Hds as [Hd Hds]. cbn [app digits_val fold_left].
    rewrite Hd. apply IH; assumption.
Qed.

Lemma signed_val_digits ds rest :
  Forall (fun c => isdigit c = true) ds -> ds <> [] -> ends_number rest ->
  signed_val (skip_space (ds ++ rest)) = Some (to_int (to_long (dec_value ds))).
Proof.
  intros Hds Hne Hrest. destruct ds as [|d ds]; [congruence|].
  pose proof Hds as Hall. apply Forall_cons in Hds as [Hd Hds].
  destruct (isdigit_plain d Hd) as (Hs & Hm & Hp).
  cbn [app skip_space]. rewrite Hs. unfold signed_val. rewrite Hm, Hp, Hd.
  do 3 f_equal. exact (digits_val_app (d :: ds) 0%Z rest Hall Hrest).
Qed.

(** [atoi] passes white space, reads the digits and stops at the first
    byte that is not one; the value is taken as an [int]. *)
Lemma atoi_token ws ds rest :
  Forall (fun c => isspace c = true) ws ->
  Forall (fun c => isdigit c = true) ds -> ds <> [] -> ends_number rest ->
  atoi (ws ++ ds ++ rest) = to_int (to_long (dec_value ds)).
Proof.
  intros Hws Hds Hne Hrest. unfold atoi.
  rewrite skip_space_app by assumption.
  rewrite signed_val_digits by assumption. reflexivity.
Qed.

Lemma skip_space_idem s : skip_space (skip_space s) = skip_space s.
Proof.
  induction s as [|c s IH]; simpl; [reflexivity|].
  destruct (isspace c) eqn:E; [exact IH|]. simpl. rewrite E. reflexivity.
Qed.

(** [sscanf] accepts a line that starts with [port:], white space or
    none, and digits. *)
Lemma sscanf_port_token ws ds rest :
  Forall (fun c => isspace c = true) ws ->
  Forall (fun c => isdigit c = true) ds -> ds <> [] -> ends_number rest ->
  sscanf_port (B "port:" ++ ws ++ ds ++ rest) = Some (to_int (to_long (dec_value ds))).
Proof.
  intros Hws Hds Hne Hrest. unfold sscanf_port.
  rewrite starts_with_app.
  change (drop 5 (B "port:" ++ ws ++ ds ++ rest)) with (ws ++ ds ++ rest).
  unfold scan_int. rewrite skip_space_idem, skip_space_app by assumption.
  apply signed_val_digits; assumption.
Qed.

Lemma scan_server_json_key text key pre mid post :
  text = pre ++ key ++ mid ++ ":"%char :: post ->
  (key = KEY_DQ /\ (forall k, k < length pre -> occurs_at KEY_DQ text k = false) \/
   key = KEY_SQ /\ (forall k, occurs_at KEY_DQ text k = false) /\
     (forall k, k < length pre -> occurs_at KEY_SQ text k = false)) ->
  Forall (fun y => Ascii.eqb y ":"%char = false) mid ->
  scan_server_json text = Some (atoi post).
Proof.
  intros -> Hkey Hmid. unfold scan_server_json.
  assert (Hchr : strchr (key ++ mid ++ ":"%char :: post) ":"%char
                 = Some (":"%char :: post)).
  { rewrite app_assoc. apply strchr_first. apply Forall_app. split; [|exact Hmid].
    destruct Hkey as [[-> _]|[-> _]]; repeat constructor. }
  destruct Hkey as [[-> Hfirst]|[-> [Hno Hfirst]]].
  - rewrite (strstr_first pre KEY_DQ _ Hfirst), Hchr. reflexivity.
  - rewrite (strstr_none _ KEY_DQ Hno), (strstr_first pre KEY_SQ _ Hfirst), Hchr.
    reflexivity.
Qed.

Lemma scan_server_json_no_key text :
  (forall k, occurs_at KEY_DQ text k = false) ->
  (forall k, occurs_at KEY_SQ text k = false) ->
  scan_server_json text = None.
Proof.
  intros Hd Hs. unfold scan_server_json.
  rewrite (strstr_none _ _ Hd), (strstr_none _ _ Hs). reflexivity.
Qed.

Lemma scan_server_json_no_colon text key pre rest :
  text = pre ++ key ++ rest ->
  (key = KEY_DQ /\ (forall k, k < length pre -> occurs_at KEY_DQ text k = false) \/
   key = KEY_SQ /\ (forall k, occurs_at KEY_DQ text k = false) /\
     (forall k, k < length pre -> occurs_at KEY_SQ text k = false)) ->
  Forall (fun y => Ascii.eqb y ":"%char = false) rest ->
  scan_server_json text = None.
Proof.
  intros -> Hkey Hrest. unfold scan_server_json.
  assert (Hchr : strchr (key ++ rest) ":"%char = None).
  { apply strchr_none. apply Forall_app. split; [|exact Hrest].
    destruct Hkey as [[-> _]|[-> _]]; repeat constructor. }
  destruct Hkey as [[-> Hfirst]|[-> [Hno Hfirst]]].
  - rewrite (strstr_first pre KEY_DQ _ Hfirst), Hchr. reflexivity.
  - rewrite (strstr_none _ KEY_DQ Hno), (strstr_first pre KEY_SQ _ Hfirst), Hchr.
    reflexivity.
Qed.

Lemma server_json_length : length (B "/run/server.json") = 16.
Proof. reflexivity. Qed.

Lemma config_yaml_length : length (B "/config.yaml") = 12.
Proof. reflexivity. Qed.

(** C1, as the code has it.  [read_port] looks at [run/server.json]
    first.  If that file can be opened, its first 511 bytes decide: with
    the key (the first ["port"], or the first ['port'] when there is no
    ["port"]) and a [:] after it, the port is what [atoi] reads behind that
    [:]; with no key, or no [:] after it, the port is 7777, and
    [config.yaml] is not read.
    Only if [run/server.json] cannot be opened is [config.yaml] scanned,
    in the pieces [fgets] cuts it into: its lines, a line that does not
    fit the line buffer in pieces of 255 bytes.  The first piece that
    [sscanf] accepts as [port: <integer>] gives the port, and 7777 if there
    is none.  With neither file the port is 7777.  The port is an [int] in
    every case. *)
Theorem read_port_layers (fs : filesystem) (root : bytes) :
  length (c_str root) + 16 < MAX_PATH_LEN ->
  let json := fopen fs (c_str root ++ B "/run/server.json") in
  let yaml := fopen fs (c_str root ++ B "/config.yaml") in
  (forall content key pre mid post,
     json = Some content ->
     let text := c_str (take (PORT_BUF_SZ - 1) content) in
     text = pre ++ key ++ mid ++ ":"%char :: post ->
     (key = KEY_DQ /\ (forall k, k < length pre -> occurs_at KEY_DQ text k = false) \/
      key = KEY_SQ /\ (forall k, occurs_at KEY_DQ text k = false) /\
        (forall k, k < length pre -> occurs_at KEY_SQ text k = false)) ->
     Forall (fun y => Ascii.eqb y ":"%char = false) mid ->
     read_port fs root = atoi post) /\
  (forall content key pre rest,
     json = Some content ->
     let text := c_str (take (PORT_BUF_SZ - 1) content) in
     text = pre ++ key ++ rest ->
     (key = KEY_DQ /\ (forall k, k < length pre -> occurs_at KEY_DQ text k = false) \/
      key = KEY_SQ /\ (forall k, occurs_at KEY_DQ text k = false) /\
        (forall k, k < length pre -> occurs_at KEY_SQ text k = false)) ->
     Forall (fun y => Ascii.eqb y ":"%char = false) rest ->
     read_port fs root = DEFAULT_PORT) /\
  (forall content,
     json = Some content ->
     let text := c_str (take (PORT_BUF_SZ - 1) content) in
     (forall k, occurs_at KEY_DQ text k = false) ->
     (forall k, occurs_at KEY_SQ text k = false) ->
     read_port fs root = DEFAULT_PORT) /\
  (forall pieces tail,
     json = None ->
     yaml = Some (concat pieces ++ tail) ->
     Forall fgets_piece pieces ->
     no_newline tail -> length tail < LINE_SZ ->
     read_port fs root =
       default DEFAULT_PORT
         (first_some (fun chunk => sscanf_port (c_str chunk)) (pieces ++ [tail]))) /\
  (forall content : bytes,
     exists pieces tail,
       content = concat pieces ++ tail /\ Forall fgets_piece pieces /\
       no_newline tail /\ length tail < LINE_SZ) /\
  (json = None -> yaml = None -> read_port fs root = DEFAULT_PORT) /\
  (INT_MIN <= read_port fs root <= INT_MAX)%Z.
Proof.
  intros Hlen. cbv zeta.
  pose proof (read_port_range fs root) as Hrange. revert Hrange. unfold read_port.
  rewrite !snprintf_fits
    by (rewrite length_app, ?server_json_length, ?config_yaml_length; lia).
  unfold fread. intros Hrange.
  split; [|split; [|split; [|split; [|split; [|split; [|exact Hrange]]]]]].
  - intros content key pre mid post Hj Htext Hkey Hmid. rewrite Hj.
    rewrite (scan_server_json_key _ key pre mid post Htext Hkey Hmid).
    reflexivity.
  - intros content key pre rest Hj Htext Hkey Hrest. rewrite Hj.
    rewrite (scan_server_json_no_colon _ key pre rest Htext Hkey Hrest).
    reflexivity.
  - intros content Hj Hd Hs. rewrite Hj.
    rewrite (scan_server_json_no_key _ Hd Hs). reflexivity.
  - intros pieces tail Hj Hy Hpieces Htail Htl. rewrite Hj, Hy.
    rewrite scan_config_lines_pieces by assumption. reflexivity.
  - intros content. exact (config_pieces_exist (length content) content (le_n _)).
  - intros Hj Hy. rewrite Hj, Hy. reflexivity.
Qed.

Lemma read_port_layers_witness :
  read_port json_only root_dir = 9999%Z /\
  read_port yaml_only root_dir = 4242%Z /\
  read_port ∅ root_dir = 7777%Z.
Proof.
  assert (Hlen : length (c_str root_dir) + 16 < MAX_PATH_LEN) by (vm_compute; lia).
  split; [|split].
  - destruct (read_port_layers json_only root_dir Hlen) as (Hkey & _).
    rewrite (Hkey (B "{" ++ KEY_DQ ++ B ": 9999}") KEY_DQ (B "{") [] (B " 9999}")).
    + reflexivity.
    + reflexivity.
    + reflexivity.
    + left. split; [reflexivity|]. intros [|k] Hk; [reflexivity|simpl in Hk; lia].
    + constructor.
  - destruct (read_port_layers yaml_only root_dir Hlen) as (_ & _ & _ & Hyaml & _).
    rewrite (Hyaml [ln "port: 4242"] []).
    + reflexivity.
    + reflexivity.
    + reflexivity.
    + constructor; [|constructor]. left. exists (B "port: 4242").
      split; [reflexivity|]. split; [repeat constructor | vm_compute; lia].
    + constructor.
    + vm_compute. lia.
  - destruct (read_port_layers ∅ root_dir Hlen) as (_ & _ & _ & _ & _ & Hnone & _).
    apply Hnone; reflexivity.
Defined.

(** C1 as the spec words it fails: with a [run/server.json] that has no
    key, the port of [config.yaml] is not used. *)
Lemma read_port_key_missing_no_fallback :
  fopen json_without_key (B "/r/.codeplane/run/server.json") = Some (B "{}") /\
  scan_server_json (B "{}") = None /\
  fopen json_without_key (B "/r/.codeplane/config.yaml") = Some (ln "port: 4242") /\
  scan_config_lines (ln "port: 4242") = Some 4242%Z /\
  read_port json_without_key root_dir = 7777%Z.
Proof. repeat split; vm_compute; reflexivity. Qed.

(** ** ConfigLocator: the file system root *)

(** C7.  [find_codeplane_dir] walks up from the working directory and
    reports the first directory with a marker, but it stops at the
    directory just below the file system root: started in [/a/b/c] with
    the marker in [/], it returns -1 although an ancestor holds the
    marker. *)
Theorem find_codeplane_dir_misses_root :
  has_marker marker_at_root [] = true /\
  find (has_marker marker_at_root) (dirs_up (rev [B "a"; B "b"; B "c"])) = None /\
  find_codeplane_dir marker_at_root (Some (B "/a/b/c")) MAX_PATH_LEN = None.
Proof. repeat split; vm_compute; reflexivity. Qed.

(** Three directories below a marked project directory the walk finds
    it; with no marker anywhere it ends in -1. *)
Lemma find_codeplane_dir_three_below :
  find_codeplane_dir project_at_p (Some (B "/p/a/b/c")) MAX_PATH_LEN
    = Some (B "/p/.codeplane").
Proof.
  change (B "/p/a/b/c") with (abs_path [B "p"; B "a"; B "b"; B "c"]).
  rewrite (find_codeplane_dir_walk project_at_p [B "p"; B "a"; B "b"; B "c"]).
  - reflexivity.
  - discriminate.
  - repeat constructor.
  - vm_compute. lia.
Qed.

Lemma find_codeplane_dir_none fs start :
  (forall p, fopen fs p = None) ->
  find_codeplane_dir fs (Some start) MAX_PATH_LEN = None.
Proof.
  intros Hfs. unfold find_codeplane_dir.
  destruct (getcwd (Some start) MAX_PATH_LEN) as [cwd|]; [|reflexivity].
  exact (find_codeplane_loop_none fs MAX_PATH_LEN Hfs (length cwd) cwd (le_n _)).
Qed.

(** ** ConfigResolver: the token *)

Lemma trim_loop_spec out : forall n,
  n <= length out ->
  trim_loop out n <= n /\
  (exists ws, take n out = take (trim_loop out n) out ++ ws /\
              Forall (fun c => is_trailing_ws c = true) ws) /\
  (forall k, trim_loop out n = S k ->
     exists c, out !! k = Some c /\ is_trailing_ws c = false).
Proof.
  induction n as [|n IH]; intros Hn.
  - simpl. split; [lia|]. split; [exists []; split; [reflexivity|constructor]|].
    intros k Hk. discriminate.
  - destruct (lookup_lt_is_Some_2 out n ltac:(lia)) as [c Hc].
    cbn [trim_loop]. rewrite Hc. change (default NUL (Some c)) with c.
    destruct (is_trailing_ws c) eqn:Hws.
    + destruct (IH ltac:(lia)) as (Hle & (ws & Hws' & Hall) & Hlast).
      split; [lia|]. split; [|exact Hlast].
      exists (ws ++ [c]). split.
      * rewrite (take_S_r out n c Hc), Hws', app_assoc. reflexivity.
      * apply Forall_app. split; [exact Hall|]. repeat constructor. exact Hws.
    + split; [lia|]. split.
      * exists []. rewrite app_nil_r. split; [reflexivity|constructor].
      * intros k [= <-]. exists c. split; assumption.
Qed.

Lemma token_path_length : length (B "/run/token") = 10.
Proof. reflexivity. Qed.

(** The request of an empty token carries no [Authorization] line. *)
Lemma request_text_no_token port path_and_query token :
  c_str token = [] ->
  request_text port path_and_query token =
    B "GET " ++ c_str path_and_query ++ B " HTTP/1.0" ++ CRLF ++
    B "Host: localhost:" ++ dec port ++ CRLF ++
    B "Accept: application/json" ++ CRLF ++ CRLF.
Proof.
  intros H. unfold request_text. rewrite H.
  rewrite bool_decide_eq_false_2 by (intros E; apply E; reflexivity). reflexivity.
Qed.

(** C9, as the code has it.  [read_token] reads at most 511 bytes of
    [run/token], one less than the 512 bytes of its buffer, and a longer
    file is cut there without an error.  From what was read it drops the
    trailing carriage returns, newlines and spaces, and nothing else: the
    bytes read are the token followed by such bytes only, and the token
    does not end in one.  When the file cannot be opened the token is
    empty, and the request then carries no [Authorization] line. *)
Theorem read_token_spec (fs : filesystem) (root : bytes) :
  length (c_str root) + 10 < MAX_PATH_LEN ->
  let token := read_token fs root TOKEN_SZ in
  length token <= TOKEN_SZ - 1 /\
  (fopen fs (c_str root ++ B "/run/token") = None ->
     token = [] /\
     forall port path_and_query,
       request_text port path_and_query token =
         B "GET " ++ c_str path_and_query ++ B " HTTP/1.0" ++ CRLF ++
         B "Host: localhost:" ++ dec port ++ CRLF ++
         B "Accept: application/json" ++ CRLF ++ CRLF) /\
  (forall content,
     fopen fs (c_str root ++ B "/run/token") = Some content ->
     (exists ws, take (TOKEN_SZ - 1) content = token ++ ws /\
                 Forall (fun c => is_trailing_ws c = true) ws) /\
     (forall t c, token = t ++ [c] -> is_trailing_ws c = false)).
Proof.
  intros Hlen. cbv zeta. unfold read_token.
  rewrite snprintf_fits by (rewrite length_app, token_path_length; lia).
  unfold fread. set (cap := TOKEN_SZ - 1).
  destruct (fopen fs (c_str root ++ B "/run/token")) as [content|].
  - set (out := take cap content).
    destruct (trim_loop_spec out (length out) (le_n _)) as (Hle & (ws & Hws & Hall) & Hlast).
    rewrite firstn_all in Hws.
    split; [|split].
    + assert (length out <= cap) by (unfold out; rewrite length_take; lia).
      rewrite length_take. lia.
    + discriminate.
    + intros ? [= <-]. fold out. split.
      * exists ws. split; assumption.
      * intros t c Ht.
        assert (Hn : trim_loop out (length out) = S (length t)).
        { apply (f_equal length) in Ht. rewrite length_take, length_app in Ht.
          simpl in Ht. lia. }
        destruct (Hlast _ Hn) as (c' & Hc' & Hnws).
        assert (Hc : take (trim_loop out (length out)) out !! length t = Some c)
          by (rewrite Ht; apply list_lookup_middle; reflexivity).
        rewrite lookup_take_lt in Hc by lia. congruence.
  - split; [simpl; lia|]. split; [|discriminate].
    intros _. split; [reflexivity|].
    intros port path_and_query. apply request_text_no_token. reflexivity.
Qed.

Lemma read_token_spec_witness :
  read_token ∅ root_dir TOKEN_SZ = [] /\
  (let content := B "tok" ++ [" "%char; CR; LF] in
   let token := read_token (token_file content) root_dir TOKEN_SZ in
   (exists ws, take (TOKEN_SZ - 1) content = token ++ ws /\
               Forall (fun c => is_trailing_ws c = true) ws) /\
   (forall t c, token = t ++ [c] -> is_trailing_ws c = false) /\
   token = B "tok") /\
  (let content := replicate 600 "a"%char ++ [LF] in
   let token := read_token (token_file content) root_dir TOKEN_SZ in
   length token <= TOKEN_SZ - 1 /\
   (exists ws, take (TOKEN_SZ - 1) content = token ++ ws /\
               Forall (fun c => is_trailing_ws c = true) ws) /\
   token = replicate 511 "a"%char).
Proof.
  assert (Hlen : length (c_str root_dir) + 10 < MAX_PATH_LEN) by (vm_compute; lia).
  split; [|split].
  - destruct (read_token_spec ∅ root_dir Hlen) as (_ & Habsent & _).
    apply Habsent. reflexivity.
  - cbv zeta.
    destruct (read_token_spec (token_file (B "tok" ++ [" "%char; CR; LF])) root_dir Hlen)
      as (_ & _ & Hfile).
    destruct (Hfile (B "tok" ++ [" "%char; CR; LF]) eq_refl) as [Hws Hlast].
    split; [exact Hws|]. split; [exact Hlast|]. reflexivity.
  - cbv zeta.
    destruct (read_token_spec (token_file (replicate 600 "a"%char ++ [LF])) root_dir Hlen)
      as (Hcap & _ & Hfile).
    destruct (Hfile (replicate 600 "a"%char ++ [LF]) eq_refl) as [Hws _].
    split; [exact Hcap|]. split; [exact Hws|]. vm_compute. reflexivity.
Defined.

(** C9 as the spec words it fails: a token of 512 bytes, none of them
    white space, is within the stated cap and yet loses its last byte. *)
Lemma read_token_cut_at_511 :
  let fs : filesystem := {[ B "/r/.codeplane/run/token" := replicate 512 "a"%char ]} in
  fopen fs (B "/r/.codeplane/run/token") = Some (replicate 512 "a"%char) /\
  length (replicate 512 "a"%char) = 512 /\
  read_token fs root_dir TOKEN_SZ = replicate 511 "a"%char /\
  read_token fs root_dir TOKEN_SZ <> replicate 512 "a"%char.
Proof. repeat split; vm_compute; first [reflexivity | discriminate]. Qed.

(** ** HttpClient *)

Lemma sent_bytes_fits text : length text < REQ_SZ -> sent_bytes text = Some text.
Proof.
  intros H. unfold sent_bytes, snprintf.
  destruct (Nat.ltb_spec (length text) REQ_SZ); [|lia].
  f_equal. apply take_ge. lia.
Qed.

(** A run of [http_get] that gets its connection and its buffer. *)
Lemma http_get_connected nw port path_and_query token data :
  net_init_ok nw = true -> socket_ok nw = true ->
  connect_ok nw (port16 port) = true -> malloc_ok nw = true ->
  sent_bytes (request_text port path_and_query token) = Some data ->
  exists calls,
    http_get nw port path_and_query token =
      Some {| exit_code := status_exit (response_status (received nw));
              stdout := response_body (c_str (received nw)) ++ [LF];
              stderr := [];
              net_trace := [NetInit; Socket; Connect (port16 port); Send data] ++
                           replicate calls Recv ++ [Close; NetCleanup] |}.
Proof.
  intros Hi Hs Hc Hm Hd. unfold http_get, received.
  rewrite Hi, Hs, Hc, Hm, Hd. cbn [negb mbind option_bind].
  destruct (recv_loop (incoming nw) []) as [buf calls]. exists calls. reflexivity.
Qed.

Lemma sent_connected x so se port data calls :
  sent {| exit_code := x; stdout := so; stderr := se;
          net_trace := [NetInit; Socket; Connect port; Send data] ++
                       replicate calls Recv ++ [Close; NetCleanup] |} = [data].
Proof.
  unfold sent. cbn [net_trace flat_map app]. f_equal.
  rewrite flat_map_app. cbn [flat_map app]. rewrite app_nil_r.
  induction calls as [|n IH]; [reflexivity|exact IH].
Qed.

(** C4, as the code has it.  When the connection is made and the request
    fits its buffer of 8704 bytes, [http_get] sends once, and what it
    sends is the request line, the [Host] line, the [Authorization] line
    if and only if the token is not empty, the [Accept] line and a blank
    line, in this order, with nothing after. *)
Theorem http_get_request (nw : network) (port : Z) (path_and_query token : bytes) :
  net_init_ok nw = true -> socket_ok nw = true ->
  connect_ok nw (port16 port) = true ->
  length (request_text port path_and_query token) < REQ_SZ ->
  exists r,
    http_get nw port path_and_query token = Some r /\
    sent r =
      [ B "GET " ++ c_str path_and_query ++ B " HTTP/1.0" ++ CRLF ++
        B "Host: localhost:" ++ dec port ++ CRLF ++
        (if bool_decide (c_str token <> [])
         then B "Authorization: Bearer " ++ c_str token ++ CRLF else []) ++
        B "Accept: application/json" ++ CRLF ++ CRLF ].
Proof.
  intros Hi Hs Hc Hfit.
  assert (Htext : request_text port path_and_query token =
      B "GET " ++ c_str path_and_query ++ B " HTTP/1.0" ++ CRLF ++
      B "Host: localhost:" ++ dec port ++ CRLF ++
      (if bool_decide (c_str token <> [])
       then B "Authorization: Bearer " ++ c_str token ++ CRLF else []) ++
      B "Accept: application/json" ++ CRLF ++ CRLF).
  { unfold request_text. destruct (bool_decide (c_str token <> [])).
    - rewrite <- !app_assoc. reflexivity.
    - reflexivity. }
  rewrite <- Htext.
  pose proof (sent_bytes_fits _ Hfit) as Hd.
  destruct (malloc_ok nw) eqn:Hm.
  - destruct (http_get_connected nw port path_and_query token _ Hi Hs Hc Hm Hd)
      as [calls Hrun].
    eexists. split; [exact Hrun|].
    apply sent_connected.
  - unfold http_get. rewrite Hi, Hs, Hc, Hm, Hd. cbn [negb mbind option_bind].
    eexists. split; reflexivity.
Qed.

Lemma http_get_request_witness :
  exists r,
    http_get (live []) 7777 (B "/x") (B "t") = Some r /\
    sent r = [ B "GET /x HTTP/1.0" ++ CRLF ++ B "Host: localhost:7777" ++ CRLF ++
               B "Authorization: Bearer t" ++ CRLF ++
               B "Accept: application/json" ++ CRLF ++ CRLF ].
Proof.
  destruct (http_get_request (live []) 7777 (B "/x") (B "t")) as (r & Hrun & Hsent).
  - reflexivity.
  - reflexivity.
  - reflexivity.
  - vm_compute. lia.
  - exists r. split; [exact Hrun | exact Hsent].
Defined.

(** C4 as the spec words it fails: with a token the [Authorization] line
    goes before the [Accept] line, not after it. *)
Lemma http_get_request_order :
  option_map sent (http_get (live []) 7777 (B "/x") (B "t")) =
    Some [ B "GET /x HTTP/1.0" ++ CRLF ++ B "Host: localhost:7777" ++ CRLF ++
           B "Authorization: Bearer t" ++ CRLF ++
           B "Accept: application/json" ++ CRLF ++ CRLF ] /\
  option_map sent (http_get (live []) 7777 (B "/x") (B "t")) <>
    Some [ spec_request 7777 (B "/x") (B "t") ].
Proof. split; vm_compute; first [reflexivity | discriminate]. Qed.

Lemma starts_with_take p s : starts_with p s = bool_decide (take (length p) s = p).
Proof.
  revert s; induction p as [|a p IH]; intros s.
  - rewrite take_0. reflexivity.
  - destruct s as [|b s]; [reflexivity|]. cbn [starts_with length take].
    rewrite IH. destruct (Ascii.eqb_spec a b) as [->|Hab].
    + simpl. apply bool_decide_ext. split; [intros ->; reflexivity|].
      intros [= H]. exact H.
    + simpl. symmetry. apply bool_decide_eq_false_2. intros [= H _]. congruence.
Qed.

Lemma strncmp_http buf : strncmp_eq buf (B "HTTP/") 5 = starts_with (B "HTTP/") (c_str buf).
Proof. rewrite starts_with_take. reflexivity. Qed.

Lemma status_exit_spec st :
  (status_exit st = 0%Z <-> (200 <= st < 300)%Z) /\
  (status_exit st = 0%Z \/ status_exit st = 1%Z).
Proof.
  unfold status_exit.
  destruct (Z.leb_spec 200 st), (Z.ltb_spec st 300); simpl; lia.
Qed.

Lemma response_status_range buf : (INT_MIN <= response_status buf <= INT_MAX)%Z.
Proof.
  unfold response_status.
  destruct (strncmp_eq buf (B "HTTP/") 5); [|unfold INT_MIN, INT_MAX; lia].
  destruct (strchr (c_str buf) " "%char);
    [apply atoi_range|unfold INT_MIN, INT_MAX; lia].
Qed.

(** *** A run that gets its connection, its buffer and its answer *)

Section ConnectedRun.

Context (nw : network) (port : Z) (path_and_query token : bytes) (r : result).

Hypothesis net_up : net_init_ok nw = true.
Hypothesis socket_up : socket_ok nw = true.
Hypothesis connected : connect_ok nw (port16 port) = true.
Hypothesis buffer_up : malloc_ok nw = true.
Hypothesis run : http_get nw port path_and_query token = Some r.

Lemma connected_run :
  exit_code r = status_exit (response_status (received nw)) /\
  stdout r = response_body (c_str (received nw)) ++ [LF] /\
  stderr r = [].
Proof using net_up socket_up connected buffer_up run.
  destruct (sent_bytes (request_text port path_and_query token)) as [data|] eqn:Hd.
  - destruct (http_get_connected nw port path_and_query token data
                net_up socket_up connected buffer_up Hd) as [calls Hrun].
    rewrite Hrun in run. injection run as <-. repeat split.
  - pose proof run as Hrun. unfold http_get in Hrun.
    rewrite net_up, socket_up, connected, Hd in Hrun. discriminate.
Qed.

(** C5, as the code has it.  The received buffer is read as text up to
    its first NUL byte.  The exit code is 0 if and only if the status is
    in [200, 300), and 1 otherwise.  The status is 0 when the text does not
    begin with [HTTP/] or holds no space, and else what [atoi] reads after
    the first space of the text; it is an [int], so that digits beyond the
    range of [int] are not the status they spell. *)
Theorem http_get_exit_code :
  let text := c_str (received nw) in
  let status := response_status (received nw) in
  (exit_code r = 0%Z <-> (200 <= status < 300)%Z) /\
  (exit_code r = 0%Z \/ exit_code r = 1%Z) /\
  (starts_with (B "HTTP/") text = false -> status = 0%Z /\ exit_code r = 1%Z) /\
  (starts_with (B "HTTP/") text = true ->
   Forall (fun y => Ascii.eqb y " "%char = false) text ->
   status = 0%Z /\ exit_code r = 1%Z) /\
  (forall pre rest,
     starts_with (B "HTTP/") text = true ->
     text = pre ++ " "%char :: rest ->
     Forall (fun y => Ascii.eqb y " "%char = false) pre ->
     status = atoi rest) /\
  (INT_MIN <= status <= INT_MAX)%Z.
Proof using net_up socket_up connected buffer_up run.
  intros text status. destruct connected_run as (Hexit & _ & _).
  fold status in Hexit. rewrite Hexit.
  destruct (status_exit_spec status) as [Hiff Hbin].
  assert (Hrange : (INT_MIN <= status <= INT_MAX)%Z)
    by apply response_status_range.
  split; [exact Hiff|]. split; [exact Hbin|].
  unfold status, response_status. rewrite strncmp_http. fold text.
  split; [intros Hp; rewrite Hp; split; reflexivity|].
  split; [intros Hp Hsp; rewrite Hp, (strchr_none text _ Hsp); split; reflexivity|].
  split;
    [|unfold status, response_status in Hrange; rewrite strncmp_http in Hrange;
      exact Hrange].
  intros pre rest Hp Htext Hpre. rewrite Hp, Htext.
  rewrite (strchr_first pre " "%char rest Hpre). reflexivity.
Qed.

(** C6, as the code has it.  The received buffer is read as text up to
    its first NUL byte, and so is the body: standard output gets the text
    after the first blank line, or the whole text when there is none, and
    one newline.  For a buffer with no NUL byte the text is the buffer. *)
Theorem http_get_body :
  let text := c_str (received nw) in
  (forall head body,
     text = head ++ (CRLF ++ CRLF) ++ body ->
     (forall k, k < length head -> occurs_at (CRLF ++ CRLF) text k = false) ->
     stdout r = body ++ [LF]) /\
  ((forall k, occurs_at (CRLF ++ CRLF) text k = false) -> stdout r = text ++ [LF]) /\
  (Forall (fun c => is_nul c = false) (received nw) -> text = received nw).
Proof using net_up socket_up connected buffer_up run.
  intros text. destruct connected_run as (_ & Hout & _).
  fold text in Hout. rewrite Hout. unfold response_body. repeat split.
  - intros head body Htext Hfirst. rewrite Htext in Hfirst |- *.
    rewrite (strstr_first head (CRLF ++ CRLF) body Hfirst). reflexivity.
  - intros Hnone. rewrite (strstr_none text _ Hnone). reflexivity.
  - apply c_str_id.
Qed.

End ConnectedRun.

Lemma http_get_exit_code_witness :
  exists r,
    http_get (live [ok_response]) 7777 (B "/x") [] = Some r /\ exit_code r = 0%Z.
Proof.
  destruct (http_get (live [ok_response]) 7777 (B "/x") []) as [r|] eqn:Hrun;
    [|vm_compute in Hrun; discriminate].
  exists r. split; [reflexivity|].
  destruct (http_get_exit_code (live [ok_response]) 7777 (B "/x") [] r
              eq_refl eq_refl eq_refl eq_refl Hrun) as (Hiff & _).
  apply Hiff.
  assert (Hst : response_status (received (live [ok_response])) = 200%Z)
    by (vm_compute; reflexivity).
  rewrite Hst. lia.
Defined.

(** C5 as the spec words it fails: a buffer that begins with [HTTP/] and
    has 200 after its first space, but a NUL byte before that space, ends
    in exit code 1. *)
Lemma http_get_status_behind_nul :
  let buf := B "HTTP/1.0" ++ NUL :: B " 200 OK" in
  received (live [buf]) = buf /\
  starts_with (B "HTTP/") buf = true /\
  option_map (fun sp => atoi (drop 1 sp)) (strchr buf " "%char) = Some 200%Z /\
  option_map exit_code (http_get (live [buf]) 7777 (B "/x") []) = Some 1%Z.
Proof. repeat split; vm_compute; reflexivity. Qed.

(** A status line whose digits spell a number beyond [int]: the program
    reads 200 and ends in exit code 0. *)
Lemma http_get_status_beyond_int :
  let buf := B "HTTP/1.0 4294967496 OK" ++ CRLF ++ CRLF ++ B "{}" in
  response_status buf = 200%Z /\
  option_map exit_code (http_get (live [buf]) 7777 (B "/x") []) = Some 0%Z.
Proof. split; vm_compute; reflexivity. Qed.

Lemma http_get_body_witness :
  exists r,
    http_get (live [ok_response]) 7777 (B "/x") [] = Some r /\
    stdout r = B "{}" ++ [LF].
Proof.
  destruct (http_get (live [ok_response]) 7777 (B "/x") []) as [r|] eqn:Hrun;
    [|vm_compute in Hrun; discriminate].
  exists r. split; [reflexivity|].
  destruct (http_get_body (live [ok_response]) 7777 (B "/x") [] r
              eq_refl eq_refl eq_refl eq_refl Hrun) as (Hbody & _).
  apply (Hbody (B "HTTP/1.0 200 OK" ++ CRLF ++ B "Content-Type: application/json")
               (B "{}")).
  - reflexivity.
  - intros k Hk. vm_compute in Hk.
    do 47 (destruct k as [|k]; [reflexivity|]). lia.
Defined.

(** C6 as the spec words it fails: a body with a NUL byte is printed up
    to that byte only. *)
Lemma http_get_body_nul :
  let body := B "ab" ++ NUL :: B "cd" in
  let buf := B "HTTP/1.0 200 OK" ++ CRLF ++ CRLF ++ body in
  received (live [buf]) = buf /\
  option_map stdout (http_get (live [buf]) 7777 (B "/x") []) = Some (B "ab" ++ [LF]) /\
  option_map stdout (http_get (live [buf]) 7777 (B "/x") []) <> Some (body ++ [LF]).
Proof. repeat split; vm_compute; first [reflexivity | discriminate]. Qed.

(** ** CommandRouter *)

Lemma find_arg_absent name argv : absent name argv -> find_arg argv name = None.
Proof.
  unfold absent. induction argv as [|a rest IH]; [reflexivity|].
  destruct rest as [|v rest]; [reflexivity|].
  intros H. change (removelast (a :: v :: rest)) with (a :: removelast (v :: rest)) in H.
  apply Forall_cons in H as [Ha H]. cbn [find_arg]. rewrite Ha. exact (IH H).
Qed.

Lemma strcmp_eq_other a x y :
  strcmp_eq a x = true -> c_str x <> c_str y -> strcmp_eq a y = false.
Proof.
  unfold strcmp_eq. intros H Hxy. apply bool_decide_eq_true_1 in H.
  apply bool_decide_eq_false_2. congruence.
Qed.

Lemma ln_not_empty msg : ln msg <> [].
Proof. unfold ln. intros E. apply app_eq_nil in E as [_ E]. discriminate. Qed.

(** C8, as the code has it.  A command line with no subcommand, with a
    required argument missing, or with an unknown subcommand ends in exit
    code 1 with one message on standard error, nothing on standard output
    and no network call at all.  With no subcommand the message is the
    usage text.  Otherwise the configuration root is looked for first,
    and when there is none the message is the report of that, whatever
    the arguments are.  With a root, the message names the missing
    arguments of [list], [slice] or [meta], or is the unknown command and
    the usage text. *)
Theorem main_usage_error (e : env) (argv : list bytes) :
  let root := find_codeplane_dir (fs e) (os_cwd e) MAX_PATH_LEN in
  let report := fun msg =>
    Some {| exit_code := 1; stdout := []; stderr := msg; net_trace := [] |} in
  (length argv < 2 -> main e argv = report usage) /\
  (2 <= length argv -> root = None ->
   main e argv =
     report (ln "cpljson: .codeplane/ not found (are you in a CodePlane repo?)")) /\
  (2 <= length argv -> is_Some root ->
   (strcmp_eq (command argv) (B "list") = true ->
    absent (B "--session") argv \/ absent (B "--endpoint") argv ->
    main e argv = report (ln "cpljson list: --session and --endpoint required")) /\
   (strcmp_eq (command argv) (B "slice") = true ->
    absent (B "--cache") argv ->
    main e argv = report (ln "cpljson slice: --cache required")) /\
   (strcmp_eq (command argv) (B "meta") = true ->
    absent (B "--cache") argv ->
    main e argv = report (ln "cpljson meta: --cache required")) /\
   (strcmp_eq (command argv) (B "list") = false ->
    strcmp_eq (command argv) (B "slice") = false ->
    strcmp_eq (command argv) (B "meta") = false ->
    main e argv =
      report (B "cpljson: unknown command '" ++ c_str (command argv) ++ ln "'" ++ usage))).
Proof.
  cbv zeta. unfold main. fold (command argv).
  split; [|split].
  - intros Hshort. destruct (Nat.ltb_spec (length argv) 2) as [_|Hge]; [reflexivity|lia].
  - intros Hlong Hroot. destruct (Nat.ltb_spec (length argv) 2) as [Hlt|_]; [lia|].
    rewrite Hroot. reflexivity.
  - intros Hlong [cpl_dir Hroot].
    destruct (Nat.ltb_spec (length argv) 2) as [Hlt|_]; [lia|].
    rewrite Hroot. split; [|split; [|split]].
    + intros Hcmd Habs. rewrite Hcmd.
      destruct Habs as [H|H]; rewrite (find_arg_absent _ _ H); [reflexivity|].
      destruct (find_arg argv (B "--session")); reflexivity.
    + intros Hcmd Habs.
      rewrite (strcmp_eq_other _ _ (B "list") Hcmd) by discriminate.
      rewrite Hcmd, (find_arg_absent _ _ Habs). reflexivity.
    + intros Hcmd Habs.
      rewrite (strcmp_eq_other _ _ (B "list") Hcmd) by discriminate.
      rewrite (strcmp_eq_other _ _ (B "slice") Hcmd) by discriminate.
      rewrite Hcmd, (find_arg_absent _ _ Habs). reflexivity.
    + intros Hl Hs Hm. rewrite Hl, Hs, Hm. reflexivity.
Qed.

Lemma main_usage_error_witness :
  main project_env [B "cpljson"; B "meta"] =
    Some {| exit_code := 1; stdout := [];
            stderr := ln "cpljson meta: --cache required"; net_trace := [] |} /\
  main project_env [B "cpljson"] =
    Some {| exit_code := 1; stdout := []; stderr := usage; net_trace := [] |} /\
  main outside_project [B "cpljson"; B "frob"] =
    Some {| exit_code := 1; stdout := [];
            stderr := ln "cpljson: .codeplane/ not found (are you in a CodePlane repo?)";
            net_trace := [] |}.
Proof.
  split; [|split].
  - destruct (main_usage_error project_env [B "cpljson"; B "meta"])
      as (_ & _ & Hroot).
    destruct Hroot as (_ & _ & Hmeta & _).
    + vm_compute. lia.
    + exists (B "/p/.codeplane"). reflexivity.
    + apply Hmeta; [reflexivity|repeat constructor].
  - destruct (main_usage_error project_env [B "cpljson"]) as (Hshort & _).
    apply Hshort. vm_compute. lia.
  - destruct (main_usage_error outside_project [B "cpljson"; B "frob"])
      as (_ & Hnone & _).
    apply Hnone; [vm_compute; lia|reflexivity].
Defined.

(** C8 as the spec words it fails: outside a project a missing argument
    or an unknown subcommand is answered with the report that no root was
    found, which says nothing about the command line. *)
Lemma main_usage_error_outside_project :
  usage_error [B "cpljson"; B "meta"] /\
  usage_error [B "cpljson"; B "frob"] /\
  option_map stderr (main outside_project [B "cpljson"; B "meta"]) =
    Some (ln "cpljson: .codeplane/ not found (are you in a CodePlane repo?)") /\
  option_map stderr (main outside_project [B "cpljson"; B "frob"]) =
    Some (ln "cpljson: .codeplane/ not found (are you in a CodePlane repo?)") /\
  ~ usage_diagnostic (ln "cpljson: .codeplane/ not found (are you in a CodePlane repo?)").
Proof.
  split; [|split; [|split; [|split]]].
  - right. right. right. left. split; [reflexivity|repeat constructor].
  - do 4 right. repeat split; reflexivity.
  - reflexivity.
  - reflexivity.
  - intros [H|[H|[H|[H|[cmd H]]]]]; vm_compute in H; discriminate H.
Qed.

(** *** The request paths *)

Lemma MAX_URL_LEN_val : MAX_URL_LEN = 8 * 1024.
Proof. reflexivity. Qed.

Lemma url_encode_length src : length (url_encode src ENC_SZ) < ENC_SZ.
Proof.
  pose proof (url_encode_loop_bound src 0 ENC_SZ ltac:(unfold ENC_SZ; lia)) as H.
  exact H.
Qed.

Lemma snprintf_at_fits cap cur pos s :
  pos = length cur -> pos + length s < cap ->
  snprintf_at cap cur pos s = Some (cur ++ s, length s).
Proof.
  intros -> Hfit. unfold snprintf_at.
  destruct (Nat.ltb_spec cap (length cur)); [lia|].
  destruct (Nat.eqb_spec (length cur) cap); [lia|].
  destruct (Nat.ltb_spec (length cur) (length cur)); [lia|].
  cbn [orb]. rewrite firstn_all, snprintf_fits by lia. reflexivity.
Qed.

Lemma list_url_spec session endpoint :
  list_url session endpoint =
    B "/sidecar/cache/list?session=" ++ url_encode session ENC_SZ ++
    B "&endpoint=" ++ url_encode endpoint ENC_SZ.
Proof.
  unfold list_url. cbv zeta. apply snprintf_fits.
  pose proof (url_encode_length session). pose proof (url_encode_length endpoint).
  rewrite !length_app.
  change (length (B "/sidecar/cache/list?session=")) with 28.
  change (length (B "&endpoint=")) with 10.
  pose proof MAX_URL_LEN_val. unfold ENC_SZ in *. lia.
Qed.

Lemma meta_url_spec cache_id :
  meta_url cache_id = B "/sidecar/cache/meta?cache=" ++ url_encode cache_id ENC_SZ.
Proof.
  unfold meta_url. cbv zeta. apply snprintf_fits.
  pose proof (url_encode_length cache_id). rewrite length_app.
  change (length (B "/sidecar/cache/meta?cache=")) with 26.
  pose proof MAX_URL_LEN_val. unfold ENC_SZ in *. lia.
Qed.

Lemma slice_url_spec cache_id path max_bytes offset :
  length (slice_path cache_id path max_bytes offset) < MAX_URL_LEN ->
  slice_url cache_id path max_bytes offset =
    Some (slice_path cache_id path max_bytes offset).
Proof.
  unfold slice_path, slice_url, query_part. cbv zeta.
  set (head := B "/sidecar/cache/slice?cache=" ++ url_encode cache_id ENC_SZ).
  rewrite !app_assoc. fold head. intros Hfit.
  unfold snprintf at 1. rewrite take_ge by (rewrite !length_app in Hfit; lia).
  destruct path as [p|], max_bytes as [m|], offset as [o|];
    cbn [option_map mbind option_bind app] in *;
    rewrite ?app_nil_r in *; rewrite ?length_app in Hfit;
    repeat (rewrite snprintf_at_fits
              by (rewrite ?length_app; first [reflexivity | lia]);
            cbn [mbind option_bind]);
    rewrite <- ?length_app; rewrite ?app_nil_r; try reflexivity.
Qed.

(** C2, as the code has it.  The values of [--session], [--endpoint],
    [--cache] and [--path] reach the request path through [url_encode].
    The values of [--max-bytes] and [--offset] are put into the path of
    [slice] as they were given, neither encoded nor checked. *)
Theorem main_query_values (e : env) (argv : list bytes) (cpl_dir : bytes) :
  2 <= length argv ->
  find_codeplane_dir (fs e) (os_cwd e) MAX_PATH_LEN = Some cpl_dir ->
  let port := read_port (fs e) cpl_dir in
  let token := read_token (fs e) cpl_dir TOKEN_SZ in
  (forall session endpoint,
     strcmp_eq (command argv) (B "list") = true ->
     find_arg argv (B "--session") = Some session ->
     find_arg argv (B "--endpoint") = Some endpoint ->
     main e argv =
       http_get (nw e) port
         (B "/sidecar/cache/list?session=" ++ url_encode session ENC_SZ ++
          B "&endpoint=" ++ url_encode endpoint ENC_SZ) token) /\
  (forall cache_id,
     strcmp_eq (command argv) (B "meta") = true ->
     find_arg argv (B "--cache") = Some cache_id ->
     main e argv =
       http_get (nw e) port
         (B "/sidecar/cache/meta?cache=" ++ url_encode cache_id ENC_SZ) token) /\
  (forall cache_id,
     strcmp_eq (command argv) (B "slice") = true ->
     find_arg argv (B "--cache") = Some cache_id ->
     let url :=
       B "/sidecar/cache/slice?cache=" ++ url_encode cache_id ENC_SZ ++
       query_part "&path="
         (option_map (fun p => url_encode p ENC_SZ) (find_arg argv (B "--path"))) ++
       query_part "&max_bytes=" (option_map c_str (find_arg argv (B "--max-bytes"))) ++
       query_part "&offset=" (option_map c_str (find_arg argv (B "--offset"))) in
     length url < MAX_URL_LEN ->
     main e argv = http_get (nw e) port url token).
Proof.
  intros Hargc Hroot. cbv zeta. unfold main. fold (command argv). rewrite Hroot.
  destruct (Nat.ltb_spec (length argv) 2) as [Hshort|_]; [lia|].
  repeat split.
  - intros session endpoint Hcmd Hs He. rewrite Hcmd, Hs, He, list_url_spec.
    reflexivity.
  - intros cache_id Hcmd Hc.
    rewrite (strcmp_eq_other _ _ (B "list") Hcmd) by discriminate.
    rewrite (strcmp_eq_other _ _ (B "slice") Hcmd) by discriminate.
    rewrite Hcmd, Hc, meta_url_spec. reflexivity.
  - intros cache_id Hcmd Hc Hfit.
    rewrite (strcmp_eq_other _ _ (B "list") Hcmd) by discriminate.
    rewrite Hcmd, Hc. fold (slice_path cache_id (find_arg argv (B "--path"))
      (find_arg argv (B "--max-bytes")) (find_arg argv (B "--offset"))) in Hfit |- *.
    rewrite (slice_url_spec _ _ _ _ Hfit). reflexivity.
Qed.

Lemma main_query_values_witness :
  main project_env
    [B "cpljson"; B "list"; B "--session"; B "a b"; B "--endpoint"; B "x/y"] =
  http_get (live [ok_response]) 7777
    (B "/sidecar/cache/list?session=a%20b&endpoint=x%2Fy") [].
Proof.
  destruct (main_query_values project_env
              [B "cpljson"; B "list"; B "--session"; B "a b"; B "--endpoint"; B "x/y"]
              (B "/p/.codeplane")) as (Hlist & _).
  - vm_compute. lia.
  - reflexivity.
  - rewrite (Hlist (B "a b") (B "x/y")); reflexivity.
Defined.

(** C2 as the spec words it fails: a value of [--offset] that is no pure
    token goes into the request line as it is. *)
Lemma main_offset_unchecked :
  let argv := [B "cpljson"; B "slice"; B "--cache"; B "c"; B "--offset"; B "1 2"] in
  find_arg argv (B "--offset") = Some (B "1 2") /\
  pure_token (B "1 2") = false /\
  option_map sent (main project_env argv) =
    Some [ B "GET /sidecar/cache/slice?cache=c&offset=1 2 HTTP/1.0" ++ CRLF ++
           B "Host: localhost:7777" ++ CRLF ++
           B "Accept: application/json" ++ CRLF ++ CRLF ].
Proof. repeat split; vm_compute; reflexivity. Qed.

(** * Further properties of the code *)

(** ** [find_arg] *)

(** X1.  [find_arg] returns a value exactly when some argument that has
    a successor equals the name: the value is the successor of the first
    such argument, whatever that successor is. *)
Theorem find_arg_first (argv : list bytes) (name v : bytes) :
  find_arg argv name = Some v <->
  exists pre a rest,
    argv = pre ++ a :: v :: rest /\
    strcmp_eq a name = true /\
    Forall (fun x => strcmp_eq x name = false) pre.
Proof.
  split.
  - induction argv as [|a rest IH]; [discriminate|].
    destruct rest as [|v' rest]; [discriminate|]. cbn [find_arg].
    destruct (strcmp_eq a name) eqn:Ha.
    + intros [= <-]. exists [], a, rest. repeat split; [exact Ha|constructor].
    + intros H. destruct (IH H) as (pre & a' & rest' & Heq & Ha' & Hpre).
      exists (a :: pre), a', rest'. rewrite Heq.
      repeat split; [exact Ha'|constructor; assumption].
  - intros (pre & a & rest & -> & Ha & Hpre).
    induction Hpre as [|x pre Hx _ IH]; cbn [app find_arg].
    + rewrite Ha. reflexivity.
    + destruct (pre ++ a :: v :: rest) as [|y l] eqn:E;
        [destruct pre; discriminate|].
      rewrite Hx. exact IH.
Qed.

(** X2.  [find_arg] returns NULL exactly when no argument other than the
    last equals the name; a name given as the very last argument counts
    as missing. *)
Theorem find_arg_missing (argv : list bytes) (name : bytes) :
  find_arg argv name = None <-> absent name argv.
Proof.
  split; [|apply find_arg_absent].
  unfold absent. induction argv as [|a rest IH]; [constructor|].
  destruct rest as [|v rest]; [constructor|].
  change (removelast (a :: v :: rest)) with (a :: removelast (v :: rest)).
  cbn [find_arg]. destruct (strcmp_eq a name) eqn:Ha; [discriminate|].
  intros H. constructor; [exact Ha | exact (IH H)].
Qed.

(** ** The [recv] loop *)

Lemma recv_loop_delivered chunks : forall buf,
  length buf <= BUF_SIZE - 1 ->
  (recv_loop chunks buf).1 = take (BUF_SIZE - 1) (buf ++ delivered chunks).
Proof.
  induction chunks as [|chunk rest IH]; intros buf Hb.
  - cbn [recv_loop delivered fst]. rewrite app_nil_r, take_ge by lia. reflexivity.
  - cbn [recv_loop]. set (room := BUF_SIZE - 1 - length buf).
    destruct chunk as [|c chunk].
    { rewrite take_nil. cbn [delivered fst]. rewrite app_nil_r, take_ge by lia.
      reflexivity. }
    cbn [delivered].
    destruct (take room (c :: chunk)) as [|x got] eqn:E.
    + cbn [fst]. destruct room as [|n] eqn:Hr; [|discriminate].
      rewrite take_app_le by lia. rewrite take_ge by lia. reflexivity.
    + rewrite <- E.
      assert (Hgot : length (take room (c :: chunk)) = min room (length (c :: chunk)))
        by apply length_take.
      destruct (Nat.leb_spec (BUF_SIZE - 1) (length (buf ++ take room (c :: chunk))))
        as [Hfull|Hroom]; rewrite length_app in *.
      * cbn [fst]. rewrite take_app, (take_ge buf) by lia. f_equal.
        fold room. rewrite take_app_le by lia. reflexivity.
      * destruct (recv_loop rest (buf ++ take room (c :: chunk))) as [b k] eqn:Er.
        cbn [fst]. pose proof (IH (buf ++ take room (c :: chunk))) as IH'.
        rewrite Er, length_app in IH'. cbn [fst] in IH'. rewrite IH' by lia.
        rewrite (take_ge (c :: chunk)) by lia. rewrite <- app_assoc. reflexivity.
Qed.

(** X3.  The receive loop never fills more than [BUF_SIZE - 1] bytes, so
    the terminator always has its place, and what it gathers is what the
    peer delivered before the first empty read, cut to that size.  A
    response that long or longer is truncated without any sign. *)
Theorem received_delivered (nw : network) :
  received nw = take (BUF_SIZE - 1) (delivered (incoming nw)) /\
  length (received nw) <= BUF_SIZE - 1.
Proof.
  assert (H : received nw = take (BUF_SIZE - 1) (delivered (incoming nw))).
  { unfold received. rewrite recv_loop_delivered by (cbn [length]; lia). reflexivity. }
  split; [exact H|]. rewrite H, length_take. lia.
Qed.

(** ** [url_encode] *)

Lemma unreserved_not_nul c : unreserved c = true -> is_nul c = false.
Proof. intros H. apply encoded_char_not_nul, unreserved_encoded, H. Qed.

Lemma url_encode_loop_plain src : forall i dst_sz,
  Forall (fun c => unreserved c = true) src ->
  i + length src + 3 < dst_sz ->
  url_encode_loop src i dst_sz = src.
Proof.
  induction src as [|c src IH]; intros i dst_sz Hall Hfit; [reflexivity|].
  apply Forall_cons in Hall as [Hc Hall]. cbn [url_encode_loop length] in *.
  rewrite (unreserved_not_nul c Hc), Hc.
  destruct (Nat.ltb_spec (i + 4) dst_sz); [|lia]. cbn [negb andb].
  rewrite IH by (first [assumption|lia]). reflexivity.
Qed.

(** X4.  A value made of unreserved bytes only, with four bytes of the
    destination to spare, comes out of [url_encode] unchanged. *)
Theorem url_encode_plain (src : bytes) (dst_sz : nat) :
  Forall (fun c => unreserved c = true) src ->
  length src + 3 < dst_sz ->
  url_encode src dst_sz = src.
Proof. intros Hall Hfit. apply url_encode_loop_plain; [exact Hall | lia]. Qed.

Lemma url_encode_plain_witness : url_encode (B "cache-01_a.b~c") ENC_SZ = B "cache-01_a.b~c".
Proof.
  apply url_encode_plain.
  - repeat constructor.
  - vm_compute. lia.
Defined.

Lemma url_encode_loop_cut src : forall i dst_sz,
  url_encode_loop src i dst_sz = encode_all (c_str src) \/
  dst_sz <= i + length (url_encode_loop src i dst_sz) + 4.
Proof.
  induction src as [|c src IH]; intros i dst_sz; [left; reflexivity|].
  cbn [url_encode_loop c_str].
  destruct (is_nul c) eqn:Hn; [left; reflexivity|]. cbn [negb andb].
  destruct (Nat.ltb_spec (i + 4) dst_sz) as [Hlt|Hge]; [|right; simpl; lia].
  cbn [encode_all flat_map]. fold (encode_all (c_str src)). unfold encode_byte.
  destruct (unreserved c).
  - destruct (IH (i + 1) dst_sz) as [-> | Hcut]; [left; reflexivity|].
    right. cbn [length]. lia.
  - cbn [snprintf snd]. rewrite pct_length.
    destruct (IH (i + 3) dst_sz) as [-> | Hcut]; [left; reflexivity|].
    right. rewrite length_app, pct_length. lia.
Qed.

(** X5.  [url_encode] cuts only when the destination is nearly full: the
    output is the complete encoding of the source, or it ends at most
    four bytes short of the capacity. *)
Theorem url_encode_cut_near_capacity (src : bytes) (dst_sz : nat) :
  url_encode src dst_sz = encode_all (c_str src) \/
  dst_sz <= length (url_encode src dst_sz) + 4.
Proof. exact (url_encode_loop_cut src 0 dst_sz). Qed.

(** X6.  Two strings that both fit have the same encoding only if they
    are the same string: distinct values never collide in a query. *)
Theorem url_encode_injective (a b : bytes) (dst_sz : nat) :
  3 * length (c_str a) + 1 < dst_sz ->
  3 * length (c_str b) + 1 < dst_sz ->
  url_encode a dst_sz = url_encode b dst_sz ->
  c_str a = c_str b.
Proof.
  intros Ha Hb. unfold url_encode.
  rewrite !url_encode_loop_complete by lia. intros E.
  apply (f_equal percent_decode) in E.
  rewrite !percent_decode_encode_all in E. congruence.
Qed.

Lemma url_encode_injective_witness :
  c_str (B "x" ++ NUL :: B "y") = c_str (B "x" ++ NUL :: B "z").
Proof.
  apply (url_encode_injective (B "x" ++ NUL :: B "y") (B "x" ++ NUL :: B "z") ENC_SZ).
  - vm_compute. lia.
  - vm_compute. lia.
  - reflexivity.
Defined.

(** ** [http_get]: failures and resources *)

Ltac not_in_trace H :=
  repeat first
    [ apply elem_of_app in H as [H|H]
    | apply elem_of_cons in H as [H|H]; [discriminate H|]
    | apply elem_of_replicate in H as [H _]; discriminate H
    | apply elem_of_nil in H; contradiction ].

(** X7.  When the network was initialized, [net_cleanup] is the last
    network call of [http_get] and is made once.  When [socket] succeeded
    as well, the socket is closed once, right before the cleanup, on every
    path: refused connection, failed [malloc], or a response received.
    When [socket] failed there is nothing to close and nothing is closed. *)
Theorem http_get_releases (nw : network) (port : Z) (path_and_query token : bytes)
    (r : result) :
  http_get nw port path_and_query token = Some r ->
  net_init_ok nw = true ->
  exists pre,
    net_trace r = pre ++ [NetCleanup] /\ (NetCleanup ∉ pre) /\
    (socket_ok nw = true -> exists pre', pre = pre' ++ [Close] /\ (Close ∉ pre')) /\
    (socket_ok nw = false -> Close ∉ pre).
Proof.
  intros Hrun Hi. unfold http_get in Hrun. rewrite Hi in Hrun. cbn [negb] in Hrun.
  destruct (socket_ok nw) eqn:Hs; cbn [negb] in Hrun.
  2:{ injection Hrun as <-. exists [NetInit; Socket]. cbn [failure net_trace].
      split; [reflexivity|]. split; [intros H; not_in_trace H|].
      split; [discriminate|]. intros _ H. not_in_trace H. }
  destruct (connect_ok nw (port16 port)); cbn [negb] in Hrun.
  2:{ injection Hrun as <-. exists [NetInit; Socket; Connect (port16 port); Close].
      cbn [failure net_trace]. split; [reflexivity|].
      split; [intros H; not_in_trace H|]. split; [|discriminate].
      intros _. exists [NetInit; Socket; Connect (port16 port)].
      split; [reflexivity|]. intros H. not_in_trace H. }
  destruct (sent_bytes (request_text port path_and_query token)) as [data|];
    [|discriminate]. cbn [mbind option_bind] in Hrun.
  destruct (malloc_ok nw); cbn [negb] in Hrun.
  - destruct (recv_loop (incoming nw) []) as [buf calls]. injection Hrun as <-.
    cbn [net_trace].
    exists (([NetInit; Socket; Connect (port16 port); Send data] ++
             replicate calls Recv) ++ [Close]).
    split; [rewrite <- !app_assoc; reflexivity|].
    split; [intros H; not_in_trace H|]. split; [|discriminate].
    intros _. eexists. split; [reflexivity|]. intros H. not_in_trace H.
  - injection Hrun as <-. cbn [failure net_trace].
    exists ([NetInit; Socket; Connect (port16 port); Send data] ++ [Close]).
    split; [rewrite <- !app_assoc; reflexivity|].
    split; [intros H; not_in_trace H|]. split; [|discriminate].
    intros _. eexists. split; [reflexivity|]. intros H. not_in_trace H.
Qed.

Lemma http_get_releases_witness :
  exists r pre,
    http_get (live [ok_response]) 7777 (B "/x") [] = Some r /\
    net_trace r = pre ++ [NetCleanup] /\ (NetCleanup ∉ pre).
Proof.
  destruct (http_get (live [ok_response]) 7777 (B "/x") []) as [r|] eqn:Hrun;
    [|vm_compute in Hrun; discriminate].
  destruct (http_get_releases (live [ok_response]) 7777 (B "/x") [] r Hrun eq_refl)
    as (pre & Htrace & Hlast & _).
  exists r, pre. split; [reflexivity|]. split; assumption.
Defined.

(** X8.  When the network cannot be initialized, the socket cannot be
    opened, or the connection is refused, [http_get] returns 1 with a
    message on standard error, nothing on standard output and nothing
    sent; for a refused connection the message names the port as read. *)
Theorem http_get_failure (nw : network) (port : Z) (path_and_query token : bytes) :
  net_init_ok nw = false \/ socket_ok nw = false \/
    connect_ok nw (port16 port) = false ->
  exists r,
    http_get nw port path_and_query token = Some r /\
    exit_code r = 1%Z /\ stdout r = [] /\ sent r = [] /\ stderr r <> [] /\
    (net_init_ok nw = true -> socket_ok nw = true ->
     stderr r = B "cpljson: cannot connect to localhost:" ++ dec port ++ [LF]).
Proof.
  intros Hfail. unfold http_get.
  destruct (net_init_ok nw) eqn:Hi; cbn [negb].
  2:{ eexists. split; [reflexivity|]. cbn [failure exit_code stdout stderr].
      repeat split; [apply ln_not_empty|discriminate]. }
  destruct (socket_ok nw) eqn:Hs; cbn [negb].
  2:{ eexists. split; [reflexivity|]. cbn [failure exit_code stdout stderr].
      repeat split; [apply ln_not_empty|discriminate]. }
  destruct (connect_ok nw (port16 port)) eqn:Hc; cbn [negb].
  { destruct Hfail as [H|[H|H]]; discriminate. }
  eexists. split; [reflexivity|]. cbn [failure exit_code stdout stderr].
  repeat split. discriminate.
Qed.

Lemma http_get_failure_witness :
  exists r,
    http_get {| net_init_ok := true; socket_ok := true; connect_ok := fun _ => false;
                malloc_ok := true; incoming := [] |} 7777 (B "/x") [] = Some r /\
    stdout r = [] /\ stderr r = ln "cpljson: cannot connect to localhost:7777".
Proof.
  destruct (http_get_failure
              {| net_init_ok := true; socket_ok := true; connect_ok := fun _ => false;
                 malloc_ok := true; incoming := [] |} 7777 (B "/x") [])
    as (r & Hrun & _ & Hout & _ & _ & Hmsg).
  - right. right. reflexivity.
  - exists r. split; [exact Hrun|]. split; [exact Hout|].
    rewrite Hmsg; reflexivity.
Defined.

(** X9.  [http_get] hands [send] a length beyond its request array
    exactly when the connection is made and the formatted request is
    longer than the array, 8704 bytes; in every other case it runs to its
    end. *)
Theorem http_get_overread (nw : network) (port : Z) (path_and_query token : bytes) :
  http_get nw port path_and_query token = None <->
  net_init_ok nw = true /\ socket_ok nw = true /\
  connect_ok nw (port16 port) = true /\
  REQ_SZ < length (request_text port path_and_query token).
Proof.
  unfold http_get, sent_bytes, snprintf.
  destruct (net_init_ok nw); cbn [negb]; [|split; [discriminate|intros (H & _); discriminate]].
  destruct (socket_ok nw); cbn [negb];
    [|split; [discriminate|intros (_ & H & _); discriminate]].
  destruct (connect_ok nw (port16 port)); cbn [negb];
    [|split; [discriminate|intros (_ & _ & H & _); discriminate]].
  set (text := request_text port path_and_query token).
  destruct (Nat.ltb_spec (length text) REQ_SZ) as [Hlt|Hge].
  - cbn [mbind option_bind]. split; [|intros (_ & _ & _ & H); lia].
    destruct (malloc_ok nw); cbn [negb]; [|discriminate].
    destruct (recv_loop (incoming nw) []); discriminate.
  - destruct (Nat.eqb_spec (length text) REQ_SZ) as [Heq|Hne].
    + cbn [mbind option_bind]. split; [|intros (_ & _ & _ & H); lia].
      destruct (malloc_ok nw); cbn [negb]; [|discriminate].
      destruct (recv_loop (incoming nw) []); discriminate.
    + cbn [mbind option_bind]. split; [|reflexivity].
      intros _. repeat split. lia.
Qed.

(** ** The request path of [slice] *)

(** One appending [snprintf] on the array [url], which holds the text
    written so far cut to its size, with [pos] the length that text would
    have had. *)
Lemma snprintf_at_step cap full s :
  1 <= cap ->
  snprintf_at cap (take (cap - 1) full) (length full) s =
    if cap <? length full then None
    else Some (take (cap - 1) (full ++ s), length s).
Proof.
  intros Hcap. unfold snprintf_at.
  destruct (Nat.ltb_spec cap (length full)) as [Hout|Hin]; [reflexivity|].
  destruct (Nat.eqb_spec (length full) cap) as [Heq|Hne]; cbn [orb].
  - rewrite take_app_le by lia. reflexivity.
  - rewrite length_take.
    destruct (Nat.ltb_spec (min (cap - 1) (length full)) (length full)); [lia|].
    rewrite (take_ge full (cap - 1)) by lia. rewrite firstn_all.
    unfold snprintf. cbn [fst]. rewrite take_app, (take_ge full) by lia.
    replace (cap - length full - 1) with (cap - 1 - length full) by lia.
    reflexivity.
Qed.

Lemma slice_head_length cache_id :
  length (B "/sidecar/cache/slice?cache=" ++ url_encode cache_id ENC_SZ) < 27 + ENC_SZ.
Proof.
  rewrite length_app. change (length (B "/sidecar/cache/slice?cache=")) with 27.
  pose proof (url_encode_length cache_id). lia.
Qed.

Lemma slice_url_value (cache_id : bytes) (path max_bytes offset : option bytes) :
  let upto_max :=
    B "/sidecar/cache/slice?cache=" ++ url_encode cache_id ENC_SZ ++
    query_part "&path=" (option_map (fun p => url_encode p ENC_SZ) path) ++
    query_part "&max_bytes=" (option_map c_str max_bytes) in
  slice_url cache_id path max_bytes offset =
    match offset with
    | Some _ =>
        if MAX_URL_LEN <? length upto_max then None
        else Some (take (MAX_URL_LEN - 1) (slice_path cache_id path max_bytes offset))
    | None => Some (take (MAX_URL_LEN - 1) (slice_path cache_id path max_bytes None))
    end.
Proof.
  cbv zeta. unfold slice_url, slice_path. cbv zeta.
  pose proof MAX_URL_LEN_val as Hcap.
  pose proof (slice_head_length cache_id) as Hhead.
  set (head := B "/sidecar/cache/slice?cache=" ++ url_encode cache_id ENC_SZ) in *.
  rewrite !(app_assoc (B "/sidecar/cache/slice?cache=")). fold head.
  unfold snprintf at 1.
  assert (Hstep1 : forall p,
    snprintf_at MAX_URL_LEN (take (MAX_URL_LEN - 1) head) (length head)
      (B "&path=" ++ url_encode p ENC_SZ) =
    Some (take (MAX_URL_LEN - 1) (head ++ B "&path=" ++ url_encode p ENC_SZ),
          length (B "&path=" ++ url_encode p ENC_SZ))).
  { intros p. rewrite snprintf_at_step by lia.
    destruct (Nat.ltb_spec MAX_URL_LEN (length head)); [unfold ENC_SZ in *; lia|].
    reflexivity. }
  assert (Hpath : forall p,
    length (head ++ B "&path=" ++ url_encode p ENC_SZ) <= MAX_URL_LEN).
  { intros p. rewrite !length_app. change (length (B "&path=")) with 6.
    pose proof (url_encode_length p). unfold ENC_SZ in *. lia. }
  destruct path as [p|]; cbn [option_map query_part mbind option_bind].
  - rewrite Hstep1. cbn [mbind option_bind]. rewrite <- length_app.
    specialize (Hpath p). set (full1 := head ++ B "&path=" ++ url_encode p ENC_SZ) in *.
    destruct max_bytes as [m|]; cbn [option_map query_part mbind option_bind].
    + rewrite snprintf_at_step by lia.
      destruct (Nat.ltb_spec MAX_URL_LEN (length full1)); [lia|].
      cbn [mbind option_bind]. rewrite <- length_app.
      destruct offset as [o|]; cbn [option_map query_part mbind option_bind].
      * rewrite snprintf_at_step by lia. unfold full1.
        rewrite <- !app_assoc.
        destruct (MAX_URL_LEN <? _); reflexivity.
      * unfold full1. rewrite <- !app_assoc, app_nil_r. reflexivity.
    + rewrite app_nil_r.
      destruct offset as [o|]; cbn [option_map query_part mbind option_bind].
      * rewrite snprintf_at_step by lia. fold full1.
        destruct (Nat.ltb_spec MAX_URL_LEN (length full1)); [lia|].
        unfold full1. rewrite <- !app_assoc. reflexivity.
      * rewrite app_nil_r. reflexivity.
  - cbn [app].
    destruct max_bytes as [m|]; cbn [option_map query_part mbind option_bind].
    + rewrite snprintf_at_step by lia.
      destruct (Nat.ltb_spec MAX_URL_LEN (length head)); [unfold ENC_SZ in *; lia|].
      cbn [mbind option_bind]. rewrite <- length_app.
      destruct offset as [o|]; cbn [option_map query_part mbind option_bind].
      * rewrite snprintf_at_step by lia. rewrite <- !app_assoc.
        destruct (MAX_URL_LEN <? _); reflexivity.
      * rewrite app_nil_r. reflexivity.
    + rewrite app_nil_r.
      destruct offset as [o|]; cbn [option_map query_part mbind option_bind].
      * rewrite snprintf_at_step by lia.
        destruct (Nat.ltb_spec MAX_URL_LEN (length head)); [unfold ENC_SZ in *; lia|].
        reflexivity.
      * rewrite app_nil_r. reflexivity.
Qed.

(** X10.  The path of [slice] is the full path cut to the 8191 bytes the
    array [url] can hold, with one exception: when [--offset] is given
    and the text up to and with [&max_bytes=...] is longer than the
    array, the last [snprintf] is handed a position outside the array. *)
Theorem slice_url_cut (cache_id : bytes) (path max_bytes offset : option bytes) :
  let upto_max :=
    B "/sidecar/cache/slice?cache=" ++ url_encode cache_id ENC_SZ ++
    query_part "&path=" (option_map (fun p => url_encode p ENC_SZ) path) ++
    query_part "&max_bytes=" (option_map c_str max_bytes) in
  slice_url cache_id path max_bytes offset =
    match offset with
    | Some _ =>
        if MAX_URL_LEN <? length upto_max then None
        else Some (take (MAX_URL_LEN - 1) (slice_path cache_id path max_bytes offset))
    | None => Some (take (MAX_URL_LEN - 1) (slice_path cache_id path max_bytes None))
    end.
Proof. exact (slice_url_value cache_id path max_bytes offset). Qed.

(** ** [main] as a whole *)

(** A run of [main] ends in a message without any network call, or is a
    run of [http_get] on one of the three request paths, with the port and
    the token of the root that was found. *)
Lemma main_cases e argv r :
  main e argv = Some r ->
  (exists msg, r = failure msg []) \/
  exists cpl_dir path,
    find_codeplane_dir (fs e) (os_cwd e) MAX_PATH_LEN = Some cpl_dir /\
    http_get (nw e) (read_port (fs e) cpl_dir) path
      (read_token (fs e) cpl_dir TOKEN_SZ) = Some r /\
    ((exists session endpoint, path = list_url session endpoint) \/
     (exists cache_id, path = meta_url cache_id) \/
     (exists cache_id p m o, slice_url cache_id p m o = Some path)).
Proof.
  unfold main. destruct (length argv <? 2); [intros [= <-]; left; eauto|].
  destruct (find_codeplane_dir (fs e) (os_cwd e) MAX_PATH_LEN) as [cpl_dir|];
    [|intros [= <-]; left; eauto].
  destruct (strcmp_eq _ (B "list")).
  { destruct (find_arg argv (B "--session")) as [session|];
      [|intros [= <-]; left; eauto].
    destruct (find_arg argv (B "--endpoint")) as [endpoint|];
      [|intros [= <-]; left; eauto].
    intros Hrun. right. do 2 eexists. split; [reflexivity|].
    split; [exact Hrun|]. left. eauto. }
  destruct (strcmp_eq _ (B "slice")).
  { destruct (find_arg argv (B "--cache")) as [cache_id|];
      [|intros [= <-]; left; eauto].
    destruct (slice_url cache_id _ _ _) as [url|] eqn:Hurl; [|discriminate].
    cbn [mbind option_bind]. intros Hrun. right. do 2 eexists.
    split; [reflexivity|]. split; [exact Hrun|]. right. right. eauto 6. }
  destruct (strcmp_eq _ (B "meta")); [|intros [= <-]; left; eauto].
  destruct (find_arg argv (B "--cache")) as [cache_id|];
    [|intros [= <-]; left; eauto].
  intros Hrun. right. do 2 eexists. split; [reflexivity|].
  split; [exact Hrun|]. right. left. eauto.
Qed.

Lemma http_get_exit_zero nw port path_and_query token r :
  http_get nw port path_and_query token = Some r ->
  exit_code r = 0%Z ->
  (net_init_ok nw = true /\ socket_ok nw = true /\
   connect_ok nw (port16 port) = true /\ malloc_ok nw = true) /\
  (200 <= response_status (received nw) < 300)%Z /\
  stdout r = response_body (c_str (received nw)) ++ [LF] /\
  stderr r = [].
Proof.
  intros Hrun Hzero.
  destruct (net_init_ok nw) eqn:Hi.
  2:{ unfold http_get in Hrun. rewrite Hi in Hrun. injection Hrun as <-. discriminate. }
  destruct (socket_ok nw) eqn:Hs.
  2:{ unfold http_get in Hrun. rewrite Hi, Hs in Hrun. injection Hrun as <-.
      discriminate. }
  destruct (connect_ok nw (port16 port)) eqn:Hc.
  2:{ unfold http_get in Hrun. rewrite Hi, Hs, Hc in Hrun. injection Hrun as <-.
      discriminate. }
  destruct (malloc_ok nw) eqn:Hm.
  2:{ unfold http_get in Hrun. rewrite Hi, Hs, Hc, Hm in Hrun. cbn [negb] in Hrun.
      destruct (sent_bytes _); [|discriminate]. injection Hrun as <-. discriminate. }
  destruct (connected_run nw port path_and_query token r Hi Hs Hc Hm Hrun)
    as (Hexit & Hout & Herr).
  repeat split; try assumption; rewrite Hexit in Hzero;
    apply (proj1 (status_exit_spec _)) in Hzero; lia.
Qed.

(** X11.  [main] returns 0 only after a complete exchange: the root was
    found, every network call succeeded, the connection went to the port
    read for that root, the status parsed from the response is in
    [200, 300), the body went to standard output and nothing went to
    standard error. *)
Theorem main_exit_zero (e : env) (argv : list bytes) (r : result) :
  main e argv = Some r ->
  exit_code r = 0%Z ->
  (exists cpl_dir,
     find_codeplane_dir (fs e) (os_cwd e) MAX_PATH_LEN = Some cpl_dir /\
     connect_ok (nw e) (port16 (read_port (fs e) cpl_dir)) = true) /\
  (net_init_ok (nw e) = true /\ socket_ok (nw e) = true /\
   malloc_ok (nw e) = true) /\
  (200 <= response_status (received (nw e)) < 300)%Z /\
  stdout r = response_body (c_str (received (nw e))) ++ [LF] /\
  stderr r = [].
Proof.
  intros Hrun Hzero.
  destruct (main_cases e argv r Hrun)
    as [[msg ->]|(cpl_dir & path & Hroot & Hget & _)]; [discriminate|].
  destruct (http_get_exit_zero _ _ _ _ _ Hget Hzero)
    as ((Hi & Hs & Hc & Hm) & Hst & Hout & Herr).
  split; [exists cpl_dir; split; assumption|].
  split; [repeat split; assumption|].
  split; [exact Hst|]. split; assumption.
Qed.

Lemma main_exit_zero_witness :
  exists r,
    main project_env [B "cpljson"; B "meta"; B "--cache"; B "abc"] = Some r /\
    stdout r = B "{}" ++ [LF] /\ stderr r = [].
Proof.
  destruct (main project_env [B "cpljson"; B "meta"; B "--cache"; B "abc"])
    as [r|] eqn:Hrun; [|vm_compute in Hrun; discriminate].
  assert (Hzero : exit_code r = 0%Z)
    by (vm_compute in Hrun; injection Hrun as <-; reflexivity).
  destruct (main_exit_zero project_env _ r Hrun Hzero) as (_ & _ & _ & Hout & Herr).
  exists r. split; [reflexivity|]. split; [rewrite Hout; reflexivity | exact Herr].
Defined.

(** *** What goes on the wire *)

Lemma starts_with_extend p s t : starts_with p s = true -> starts_with p (s ++ t) = true.
Proof.
  intros H. rewrite (starts_with_split p s H), <- app_assoc. apply starts_with_app.
Qed.

Lemma starts_with_shift a p s : starts_with (a ++ p) (a ++ s) = starts_with p s.
Proof.
  induction a as [|x a IH]; [reflexivity|]. cbn [app starts_with].
  rewrite Ascii.eqb_refl. exact IH.
Qed.

Lemma c_str_app_plain p t :
  Forall (fun c => is_nul c = false) p -> c_str (p ++ t) = p ++ c_str t.
Proof.
  induction 1 as [|c p Hc _ IH]; [reflexivity|]. cbn [app c_str].
  rewrite Hc, IH. reflexivity.
Qed.

Lemma starts_with_c_str p s :
  Forall (fun c => is_nul c = false) p ->
  starts_with p s = true -> starts_with p (c_str s) = true.
Proof.
  intros Hp H. rewrite (starts_with_split p s H), (c_str_app_plain p _ Hp).
  apply starts_with_app.
Qed.

Lemma starts_with_take_ge p s n :
  length p <= n -> starts_with p s = true -> starts_with p (take n s) = true.
Proof.
  intros Hn H. rewrite (starts_with_split p s H), take_app, take_ge by lia.
  apply starts_with_app.
Qed.

Lemma request_text_starts p port path_and_query token :
  starts_with p (c_str path_and_query) = true ->
  starts_with (B "GET " ++ p) (request_text port path_and_query token) = true.
Proof.
  intros H. unfold request_text.
  destruct (bool_decide (c_str token <> []));
    rewrite starts_with_shift; apply starts_with_extend, H.
Qed.

Lemma sent_bytes_starts p text data :
  length p < REQ_SZ ->
  sent_bytes text = Some data ->
  starts_with p text = true -> starts_with p data = true.
Proof.
  intros Hp. unfold sent_bytes, snprintf.
  destruct (Nat.ltb_spec (length text) REQ_SZ) as [Hlt|Hge].
  - intros Hd H. assert (E : take (REQ_SZ - 1) text = data) by congruence.
    rewrite <- E. apply starts_with_take_ge; [lia|exact H].
  - destruct (Nat.eqb_spec (length text) REQ_SZ) as [Heq|Hne]; [|discriminate].
    intros Hd H. assert (E : take (REQ_SZ - 1) text ++ [NUL] = data) by congruence.
    rewrite <- E. apply starts_with_extend, starts_with_take_ge; [lia|exact H].
Qed.

Lemma http_get_sent nw port path_and_query token r :
  http_get nw port path_and_query token = Some r ->
  sent r = [] \/
  exists data,
    sent_bytes (request_text port path_and_query token) = Some data /\ sent r = [data].
Proof.
  unfold http_get.
  destruct (net_init_ok nw); cbn [negb]; [|intros [= <-]; left; reflexivity].
  destruct (socket_ok nw); cbn [negb]; [|intros [= <-]; left; reflexivity].
  destruct (connect_ok nw (port16 port)); cbn [negb];
    [|intros [= <-]; left; reflexivity].
  destruct (sent_bytes _) as [data|]; [|discriminate]. cbn [mbind option_bind].
  intros Hrun. right. exists data. split; [reflexivity|].
  destruct (malloc_ok nw); cbn [negb] in Hrun.
  - destruct (recv_loop (incoming nw) []) as [buf calls]. injection Hrun as <-.
    apply sent_connected.
  - injection Hrun as <-. reflexivity.
Qed.


Lemma prefix_no_nul (s : string) :
  forallb (fun c => negb (is_nul c)) (B s) = true ->
  Forall (fun c => is_nul c = false) (B s).
Proof.
  rewrite forallb_forall. intros H. apply Forall_forall. intros c Hc.
  apply list_elem_of_In in Hc. apply negb_true_iff, H, Hc.
Qed.

Lemma main_path_starts session endpoint cache_id p m o path :
  (path = list_url session endpoint ->
   starts_with (B "/sidecar/cache/list?session=") path = true) /\
  (path = meta_url cache_id ->
   starts_with (B "/sidecar/cache/meta?cache=") path = true) /\
  (slice_url cache_id p m o = Some path ->
   starts_with (B "/sidecar/cache/slice?cache=") path = true).
Proof.
  split; [|split].
  - intros ->. rewrite list_url_spec. apply starts_with_app.
  - intros ->. rewrite meta_url_spec. apply starts_with_app.
  - rewrite slice_url_value. pose proof MAX_URL_LEN_val as Hcap.
    assert (Hcut : forall off,
      starts_with (B "/sidecar/cache/slice?cache=")
        (take (MAX_URL_LEN - 1) (slice_path cache_id p m off)) = true).
    { intros off. apply starts_with_take_ge.
      - change (length (B "/sidecar/cache/slice?cache=")) with 27. lia.
      - unfold slice_path. apply starts_with_app. }
    destruct o as [o|].
    + destruct (MAX_URL_LEN <? _); [discriminate|]. intros Hd.
      assert (E : take (MAX_URL_LEN - 1) (slice_path cache_id p m (Some o)) = path)
        by congruence.
      rewrite <- E. apply Hcut.
    + intros Hd.
      assert (E : take (MAX_URL_LEN - 1) (slice_path cache_id p m None) = path)
        by congruence.
      rewrite <- E. apply Hcut.
Qed.

Lemma main_sends_prefix (e : env) (argv : list bytes) (r : result) :
  main e argv = Some r ->
  sent r = [] \/ exists data, sent r = [data] /\ endpoint_request data = true.
Proof.
  intros Hrun.
  destruct (main_cases e argv r Hrun)
    as [[msg ->]|(cpl_dir & path & _ & Hget & Hpath)]; [left; reflexivity|].
  destruct (http_get_sent _ _ _ _ _ Hget) as [Hnone|(data & Hdata & Hsent)];
    [left; exact Hnone|].
  right. exists data. split; [exact Hsent|]. unfold endpoint_request.
  assert (Hreq : REQ_SZ = 8 * 1024 + 512) by reflexivity.
  assert (Hwire : forall pfx : string,
    forallb (fun c => negb (is_nul c)) (B pfx) = true ->
    length (B "GET " ++ B pfx) < 100 ->
    starts_with (B pfx) path = true ->
    starts_with (B "GET " ++ B pfx) data = true).
  { intros pfx Hnn Hlen Hp.
    eapply (sent_bytes_starts (B "GET " ++ B pfx)); [lia | exact Hdata |].
    apply request_text_starts, starts_with_c_str; [|exact Hp].
    apply prefix_no_nul, Hnn. }
  destruct Hpath as [(session & endpoint & Hp)|[(cache_id & Hp)|(cache_id & p & m & o & Hp)]].
  - apply (proj1 (main_path_starts session endpoint [] None None None path)) in Hp.
    change (B "GET /sidecar/cache/list?session=")
      with (B "GET " ++ B "/sidecar/cache/list?session=").
    rewrite (Hwire "/sidecar/cache/list?session="%string eq_refl ltac:(vm_compute; lia) Hp). reflexivity.
  - apply (proj1 (proj2 (main_path_starts [] [] cache_id None None None path))) in Hp.
    change (B "GET /sidecar/cache/meta?cache=")
      with (B "GET " ++ B "/sidecar/cache/meta?cache=").
    rewrite (Hwire "/sidecar/cache/meta?cache="%string eq_refl ltac:(vm_compute; lia) Hp). apply orb_true_r.
  - apply (proj2 (proj2 (main_path_starts [] [] cache_id p m o path))) in Hp.
    change (B "GET /sidecar/cache/slice?cache=")
      with (B "GET " ++ B "/sidecar/cache/slice?cache=").
    rewrite (Hwire "/sidecar/cache/slice?cache="%string eq_refl ltac:(vm_compute; lia) Hp).
    rewrite orb_true_r. reflexivity.
Qed.

Lemma path_char_not_nul c : path_char c = true -> is_nul c = false.
Proof. each_byte c; vm_compute; congruence. Qed.

Lemma encoded_path_char c : encoded_char c = true -> path_char c = true.
Proof. unfold path_char. intros ->. reflexivity. Qed.

Lemma literal_path_chars (lit : string) :
  forallb path_char (B lit) = true -> Forall (fun c => path_char c = true) (B lit).
Proof.
  rewrite forallb_forall. intros H. apply Forall_forall. intros c Hc.
  apply H, list_elem_of_In, Hc.
Qed.

Lemma url_encode_path_chars src :
  Forall (fun c => path_char c = true) (url_encode src ENC_SZ).
Proof.
  eapply Forall_impl; [apply url_encode_loop_encoded|]. exact encoded_path_char.
Qed.

Lemma list_meta_path_clean session endpoint cache_id :
  Forall (fun c => path_char c = true) (list_url session endpoint) /\
  Forall (fun c => path_char c = true) (meta_url cache_id) /\
  length (list_url session endpoint) < MAX_URL_LEN /\
  length (meta_url cache_id) < MAX_URL_LEN.
Proof.
  pose proof MAX_URL_LEN_val as Hcap.
  pose proof (url_encode_length session). pose proof (url_encode_length endpoint).
  pose proof (url_encode_length cache_id).
  rewrite list_url_spec, meta_url_spec. repeat split.
  - repeat (apply Forall_app; split);
      first [apply url_encode_path_chars | apply literal_path_chars; reflexivity].
  - repeat (apply Forall_app; split);
      first [apply url_encode_path_chars | apply literal_path_chars; reflexivity].
  - rewrite !length_app.
    change (length (B "/sidecar/cache/list?session=")) with 28.
    change (length (B "&endpoint=")) with 10. unfold ENC_SZ in *. lia.
  - rewrite !length_app.
    change (length (B "/sidecar/cache/meta?cache=")) with 26. unfold ENC_SZ in *. lia.
Qed.

(** Apart from [slice], a run of [main] that reaches [http_get] does so
    with the path of [list] or of [meta]. *)
Lemma main_cases_encoded e argv r :
  main e argv = Some r ->
  strcmp_eq (command argv) (B "slice") = false ->
  (exists msg, r = failure msg []) \/
  exists port path token,
    http_get (nw e) port path token = Some r /\
    ((exists session endpoint, path = list_url session endpoint) \/
     (exists cache_id, path = meta_url cache_id)).
Proof.
  unfold main. fold (command argv). intros Hrun Hns. revert Hrun.
  destruct (length argv <? 2); [intros [= <-]; left; eauto|].
  destruct (find_codeplane_dir (fs e) (os_cwd e) MAX_PATH_LEN) as [cpl_dir|];
    [|intros [= <-]; left; eauto].
  destruct (strcmp_eq (command argv) (B "list")).
  { destruct (find_arg argv (B "--session")) as [session|];
      [|intros [= <-]; left; eauto].
    destruct (find_arg argv (B "--endpoint")) as [endpoint|];
      [|intros [= <-]; left; eauto].
    intros Hrun. right. do 3 eexists. split; [exact Hrun|]. left. eauto. }
  rewrite Hns.
  destruct (strcmp_eq (command argv) (B "meta")); [|intros [= <-]; left; eauto].
  destruct (find_arg argv (B "--cache")) as [cache_id|];
    [|intros [= <-]; left; eauto].
  intros Hrun. right. do 3 eexists. split; [exact Hrun|]. right. eauto.
Qed.

Lemma request_line_starts port path token :
  Forall (fun c => path_char c = true) path ->
  starts_with (B "GET " ++ path ++ B " HTTP/1.0" ++ CRLF)
    (request_text port path token) = true.
Proof.
  intros Hclean.
  assert (Hstr : c_str path = path).
  { apply c_str_id. eapply Forall_impl; [exact Hclean|]. exact path_char_not_nul. }
  unfold request_text. rewrite Hstr.
  destruct (bool_decide (c_str token <> []));
    rewrite !(app_assoc _ _ (B "Host: localhost:" ++ _)); apply starts_with_app.
Qed.

(** X12.  A run of [main] calls [send] at most once, and what it sends
    begins with [GET /sidecar/cache/list?session=],
    [GET /sidecar/cache/slice?cache=] or [GET /sidecar/cache/meta?cache=].
    For every subcommand but [slice] the whole request line is
    [GET <path> HTTP/1.0] with a path of the bytes [A-Za-z0-9._~%-] and
    [/ ? = &] only, so that no argument can put a space or a line break
    into it.  For [slice] nothing is said beyond the first bytes: its raw
    values reach the wire as they were given. *)
Theorem main_sends_endpoint (e : env) (argv : list bytes) (r : result) :
  main e argv = Some r ->
  sent r = [] \/
  exists data,
    sent r = [data] /\ endpoint_request data = true /\
    (strcmp_eq (command argv) (B "slice") = false ->
     exists path,
       Forall (fun c => path_char c = true) path /\
       starts_with (B "GET " ++ path ++ B " HTTP/1.0" ++ CRLF) data = true).
Proof.
  intros Hrun.
  destruct (main_sends_prefix e argv r Hrun) as [Hnone|(data & Hsent & Hep)];
    [left; exact Hnone|].
  right. exists data. split; [exact Hsent|]. split; [exact Hep|]. intros Hns.
  destruct (main_cases_encoded e argv r Hrun Hns)
    as [[msg ->]|(port & path & token & Hget & Hpath)]; [discriminate Hsent|].
  destruct (http_get_sent _ _ _ _ _ Hget) as [Hnone|(data' & Hdata & Hsent')];
    [rewrite Hnone in Hsent; discriminate|].
  assert (data' = data) by congruence. subst data'.
  assert (Hclean : Forall (fun c => path_char c = true) path /\
                   length path < MAX_URL_LEN).
  { destruct Hpath as [(session & endpoint & ->)|(cache_id & ->)].
    - destruct (list_meta_path_clean session endpoint []) as (H1 & _ & H3 & _). auto.
    - destruct (list_meta_path_clean [] [] cache_id) as (_ & H2 & _ & H4). auto. }
  destruct Hclean as [Hclean Hlen]. exists path. split; [exact Hclean|].
  eapply sent_bytes_starts; [|exact Hdata|apply request_line_starts, Hclean].
  rewrite !length_app. change (length (B "GET ")) with 4.
  change (length (B " HTTP/1.0")) with 9. change (length CRLF) with 2.
  assert (Hreq : REQ_SZ = MAX_URL_LEN + 512) by reflexivity. lia.
Qed.

Lemma main_sends_endpoint_witness :
  exists r data path,
    main project_env [B "cpljson"; B "meta"; B "--cache"; B "a b"] = Some r /\
    sent r = [data] /\ endpoint_request data = true /\
    Forall (fun c => path_char c = true) path /\
    starts_with (B "GET " ++ path ++ B " HTTP/1.0" ++ CRLF) data = true.
Proof.
  destruct (main project_env [B "cpljson"; B "meta"; B "--cache"; B "a b"])
    as [r|] eqn:Hrun; [|vm_compute in Hrun; discriminate].
  destruct (main_sends_endpoint project_env _ r Hrun)
    as [Hnone|(data & Hsent & Hep & Hline)].
  - vm_compute in Hrun. injection Hrun as <-. discriminate Hnone.
  - destruct (Hline eq_refl) as (path & Hclean & Hstart).
    exists r, data, path. split; [reflexivity|]. repeat split; assumption.
Defined.

(** ** [find_codeplane_dir]: what a result means *)

Lemma strrchr_split s c k :
  strrchr s c = Some k -> exists rest, s = take k s ++ c :: rest.
Proof.
  revert k; induction s as [|x s IH]; intros k; [discriminate|]. cbn [strrchr].
  destruct (strrchr s c) as [j|].
  - intros [= <-]. destruct (IH j eq_refl) as [rest Hrest].
    exists rest. cbn [take app]. f_equal. exact Hrest.
  - destruct (Ascii.eqb_spec x c) as [->|_]; [|discriminate].
    intros [= <-]. exists s. reflexivity.
Qed.

Lemma find_codeplane_loop_sound fs : forall n cwd d,
  length cwd <= n ->
  length cwd + 24 <= MAX_PATH_LEN ->
  find_codeplane_loop fs MAX_PATH_LEN cwd = Some d ->
  exists dir,
    d = dir ++ B "/.codeplane" /\ has_marker fs dir = true /\
    (dir = cwd \/ dir <> [] /\ exists rest, cwd = dir ++ "/"%char :: rest).
Proof.
  induction n as [|n IH]; intros cwd d Hn Hfit;
    rewrite find_codeplane_loop_step;
    unfold probe_marker, probe_config, marker_path;
    rewrite !snprintf_fits
      by (rewrite length_app, ?marker_length, ?config_length; lia).
  all: destruct (fopen fs (cwd ++ B "/.codeplane")) eqn:E1;
    [intros [= <-]; exists cwd; unfold has_marker, file_exists; rewrite E1; auto|].
  all: destruct (fopen fs (cwd ++ B "/.codeplane/config.yaml")) eqn:E2;
    [intros [= <-]; exists cwd; unfold has_marker, file_exists; rewrite E1, E2; auto|].
  all: destruct (strrchr cwd "/"%char) as [[|k]|] eqn:Hsep; try discriminate.
  all: pose proof (strrchr_lt _ _ _ Hsep) as Hk.
  - lia.
  - intros Hrec. destruct (strrchr_split _ _ _ Hsep) as [rest Hrest].
    assert (Hlen : length (take (S k) cwd) = S k) by (rewrite length_take; lia).
    destruct (IH (take (S k) cwd) d ltac:(lia) ltac:(lia) Hrec)
      as (dir & Hd & Hm & Hdir).
    exists dir. split; [exact Hd|]. split; [exact Hm|]. right.
    destruct Hdir as [->|[Hne [rest' Hrest']]].
    + split; [intros E; rewrite E in Hlen; discriminate|]. exists rest. exact Hrest.
    + split; [exact Hne|]. exists (rest' ++ "/"%char :: rest).
      rewrite Hrest at 1. rewrite Hrest', <- app_assoc. reflexivity.
Qed.

(** X13.  A root that [find_codeplane_dir] reports is [<dir>/.codeplane]
    for a directory that holds the marker and is the working directory
    itself or a proper prefix of it ending right before a [/]; the
    function never reports a directory outside this chain, nor the empty
    path. *)
Theorem find_codeplane_dir_sound (fs : filesystem) (start d : bytes) :
  length (c_str start) + 24 <= MAX_PATH_LEN ->
  find_codeplane_dir fs (Some start) MAX_PATH_LEN = Some d ->
  exists dir,
    d = dir ++ B "/.codeplane" /\ has_marker fs dir = true /\
    (dir = c_str start \/
     dir <> [] /\ exists rest, c_str start = dir ++ "/"%char :: rest).
Proof.
  intros Hfit. unfold find_codeplane_dir, getcwd.
  destruct (Nat.ltb_spec (length (c_str start)) MAX_PATH_LEN); [|discriminate].
  apply (find_codeplane_loop_sound fs (length (c_str start))); [lia | exact Hfit].
Qed.

Lemma find_codeplane_dir_sound_witness :
  exists dir,
    B "/p/.codeplane" = dir ++ B "/.codeplane" /\ has_marker project_at_p dir = true.
Proof.
  destruct (find_codeplane_dir_sound project_at_p (B "/p/a/b/c") (B "/p/.codeplane"))
    as (dir & Hd & Hm & _).
  - vm_compute. lia.
  - reflexivity.
  - exists dir. split; assumption.
Defined.

(** X14.  From an absolute working directory [find_codeplane_dir]
    reports the nearest marked directory: the first one, from the working
    directory upward and short of the file system root, that holds the
    marker; a marker further up is not looked at. *)
Theorem find_codeplane_dir_nearest (fs : filesystem) (cs : list bytes) :
  cs <> [] ->
  Forall (fun c => component c = true) cs ->
  length (abs_path cs) + 24 <= MAX_PATH_LEN ->
  find_codeplane_dir fs (Some (abs_path cs)) MAX_PATH_LEN =
    option_map (fun d => d ++ B "/.codeplane") (find (has_marker fs) (dirs_up (rev cs))).
Proof. exact (find_codeplane_dir_walk fs cs). Qed.

Lemma find_codeplane_dir_nearest_witness :
  find_codeplane_dir nested_projects (Some (B "/p/a/b/c")) MAX_PATH_LEN
    = Some (B "/p/a/.codeplane").
Proof.
  change (B "/p/a/b/c") with (abs_path [B "p"; B "a"; B "b"; B "c"]).
  rewrite (find_codeplane_dir_nearest nested_projects [B "p"; B "a"; B "b"; B "c"]).
  - reflexivity.
  - discriminate.
  - repeat constructor.
  - vm_compute. lia.
Defined.

(** ** [read_token]: what a token file yields *)

Lemma trim_loop_app X Y : forall n,
  n <= length X -> trim_loop (X ++ Y) n = trim_loop X n.
Proof.
  induction n as [|n IH]; intros Hn; [reflexivity|]. cbn [trim_loop].
  rewrite lookup_app_l by lia. rewrite IH by lia. reflexivity.
Qed.

Lemma trim_loop_keep t :
  (forall t' c, t = t' ++ [c] -> is_trailing_ws c = false) ->
  trim_loop t (length t) = length t.
Proof.
  destruct t as [|x t] using rev_ind; [reflexivity|]. intros Hlast.
  rewrite length_app. cbn [length]. rewrite Nat.add_1_r. cbn [trim_loop].
  rewrite list_lookup_middle by reflexivity.
  change (default NUL (Some x)) with x. rewrite (Hlast t x eq_refl). reflexivity.
Qed.

Lemma trim_loop_trailing t ws :
  Forall (fun c => is_trailing_ws c = true) ws ->
  trim_loop (t ++ ws) (length (t ++ ws)) = trim_loop t (length t).
Proof.
  induction ws as [|c ws IH] using rev_ind; intros Hws.
  - rewrite app_nil_r. reflexivity.
  - apply Forall_app in Hws as [Hws Hc]. apply Forall_cons in Hc as [Hc _].
    rewrite app_assoc, length_app. cbn [length]. rewrite Nat.add_1_r.
    cbn [trim_loop]. rewrite list_lookup_middle by reflexivity.
    change (default NUL (Some c)) with c. rewrite Hc.
    rewrite trim_loop_app by lia. exact (IH Hws).
Qed.

(** X15.  A token file of at most 511 bytes that holds a token followed
    by carriage returns, newlines and spaces only gives back exactly the
    token, white space at its start or inside it included. *)
Theorem read_token_clean (fs : filesystem) (root t ws : bytes) :
  length (c_str root) + 10 < MAX_PATH_LEN ->
  fopen fs (c_str root ++ B "/run/token") = Some (t ++ ws) ->
  length (t ++ ws) <= TOKEN_SZ - 1 ->
  Forall (fun c => is_trailing_ws c = true) ws ->
  (forall t' c, t = t' ++ [c] -> is_trailing_ws c = false) ->
  read_token fs root TOKEN_SZ = t.
Proof.
  intros Hroot Hfile Hlen Hws Hlast. unfold read_token, fread.
  rewrite snprintf_fits by (rewrite length_app, token_path_length; lia).
  rewrite Hfile, (take_ge (t ++ ws) (TOKEN_SZ - 1) Hlen).
  rewrite (trim_loop_trailing t ws Hws), (trim_loop_keep t Hlast).
  apply take_app_length.
Qed.

Lemma read_token_clean_witness :
  read_token {[ B "/r/.codeplane/run/token" := B " s3 cr3t" ++ [CR; LF] ]}
    root_dir TOKEN_SZ = B " s3 cr3t".
Proof.
  apply (read_token_clean _ root_dir (B " s3 cr3t") [CR; LF]).
  - vm_compute. lia.
  - reflexivity.
  - vm_compute. lia.
  - repeat constructor.
  - intros t' c Ht.
    assert (Hc : last (B " s3 cr3t") = Some c) by (rewrite Ht; apply last_snoc).
    injection Hc as <-. reflexivity.
Defined.

(** ** [read_port]: lines longer than the line buffer *)

(** X16.  [config.yaml] is read in pieces of at most 255 bytes: a piece
    of that length without a newline counts as a line of its own, and
    when it is not accepted the scan goes on with what follows it as if a
    new line began there. *)
Theorem scan_config_lines_long_line (piece rest : bytes) :
  length piece = LINE_SZ - 1 ->
  no_newline piece ->
  sscanf_port (c_str piece) = None ->
  scan_config_lines (piece ++ rest) = scan_config_lines rest.
Proof.
  intros Hlen Hnl Hrej. rewrite scan_config_lines_step.
  assert (Hfg : fgets LINE_SZ (piece ++ rest) = Some (piece, rest)).
  { unfold fgets. destruct (piece ++ rest) as [|x s] eqn:E.
    - apply app_eq_nil in E as [-> _]. vm_compute in Hlen. discriminate.
    - rewrite <- E, <- Hlen, fgets_take_full by exact Hnl. reflexivity. }
  rewrite Hfg, Hrej. reflexivity.
Qed.

Lemma scan_config_lines_long_line_witness :
  scan_config_lines (replicate 255 "#"%char ++ ln "port: 5") = Some 5%Z.
Proof.
  rewrite (scan_config_lines_long_line (replicate 255 "#"%char) (ln "port: 5")).
  - reflexivity.
  - reflexivity.
  - apply Forall_forall. intros c Hc. apply elem_of_replicate in Hc as [-> _].
    reflexivity.
  - reflexivity.
Defined.

(** ** Instances of the statements above *)

Lemma find_arg_first_witness :
  find_arg [B "cpljson"; B "meta"; B "--cache"; B "a"; B "--cache"; B "b"] (B "--cache")
    = Some (B "a").
Proof.
  apply (proj2 (find_arg_first _ (B "--cache") (B "a"))).
  exists [B "cpljson"; B "meta"], (B "--cache"), [B "--cache"; B "b"].
  split; [reflexivity|]. split; [reflexivity|]. repeat constructor.
Defined.

Lemma find_arg_missing_witness :
  find_arg [B "cpljson"; B "meta"; B "--cache"] (B "--cache") = None.
Proof.
  apply (proj2 (find_arg_missing _ (B "--cache"))). repeat constructor.
Defined.

Lemma http_get_overread_witness :
  http_get (live []) 7777 (replicate 9000 "a"%char) [] = None.
Proof.
  apply (proj2 (http_get_overread (live []) 7777 (replicate 9000 "a"%char) [])).
  split; [reflexivity|]. split; [reflexivity|]. split; [reflexivity|].
  vm_compute. lia.
Defined.
